(** * SerialMonitor: the per-port framing pipeline and its poll driver

    A shallow embedding of [serial_monitor.py]: the class [SerialPipeline]
    ([__init__], [update], [close], [file_dump]) and the driver [main].
    Python statements that mutate [self], print, touch the serial port or
    the file system become computations in a state-and-exception monad;
    every observable action is also logged in an event trace. *)

From Stdlib Require Import ZArith Lia List.
From Stdlib.Strings Require Import String Ascii Byte.
From stdpp Require Import base option list gmap strings.

Local Open Scope Z_scope.
Local Open Scope list_scope.

(** ** Exceptions and the state monad of method bodies *)

Inductive exn : Type :=
| SerialException
| UnicodeDecodeError
| OSError
| KeyboardInterrupt.

Definition exn_eqb (a b : exn) : bool :=
  match a, b with
  | SerialException, SerialException => true
  | UnicodeDecodeError, UnicodeDecodeError => true
  | OSError, OSError => true
  | KeyboardInterrupt, KeyboardInterrupt => true
  | _, _ => false
  end.

Inductive outcome (A : Type) : Type :=
| Return (a : A)
| Raise (e : exn).
Arguments Return {A} a.
Arguments Raise {A} e.

Module Py.

Definition M (S A : Type) : Type := S -> outcome A * S.

Definition ret {S A} (a : A) : M S A := fun s => (Return a, s).

Definition bind {S A B} (m : M S A) (k : A -> M S B) : M S B :=
  fun s => match m s with
           | (Return a, s') => k a s'
           | (Raise e, s') => (Raise e, s')
           end.

Definition raise {S A} (e : exn) : M S A := fun s => (Raise e, s).

Definition modify {S} (f : S -> S) : M S unit := fun s => (Return tt, f s).

(** [for x in l: body x] *)
Fixpoint for_each {S A} (l : list A) (body : A -> M S unit) : M S unit :=
  match l with
  | [] => ret tt
  | x :: rest => bind (body x) (fun _ => for_each rest body)
  end.

(** [try: m  except e: handler] *)
Definition try_except {S} (m : M S unit) (e : exn) (handler : M S unit)
  : M S unit :=
  fun s => match m s with
           | (Return a, s') => (Return a, s')
           | (Raise e', s') =>
               if exn_eqb e' e then handler s' else (Raise e', s')
           end.

End Py.

Notation "x <- m ;; k" := (Py.bind m (fun x => k))
  (at level 100, m at next level, right associativity).
Notation "m ;;; k" := (Py.bind m (fun _ => k))
  (at level 100, right associativity).

(** ** Bytes, integers and text *)

(** The integer a Python [bytes] object yields for one of its elements. *)
Definition byte_val (b : byte) : Z := Z.of_N (Byte.to_N b).

(** [int.from_bytes(bs, byteorder="little")] *)
Fixpoint int_from_bytes (bs : list byte) : Z :=
  match bs with
  | [] => 0
  | b :: rest => byte_val b + 256 * int_from_bytes rest
  end.

Definition is_cont (b : byte) : bool :=
  (0x80 <=? byte_val b) && (byte_val b <=? 0xBF).

Definition in_range (lo hi : Z) (b : byte) : bool :=
  (lo <=? byte_val b) && (byte_val b <=? hi).

(** Well-formedness of a byte sequence for the strict [utf-8] codec: the
    shortest-form encodings of the scalar values U+0000..U+10FFFF without the
    surrogates.  [bytes.decode("utf-8")] raises exactly when this fails. *)
Fixpoint utf8_valid (bs : list byte) : bool :=
  match bs with
  | [] => true
  | b0 :: r0 =>
      let c := byte_val b0 in
      if c <? 0x80 then utf8_valid r0
      else if c <? 0xC2 then false
      else if c <? 0xE0 then
        match r0 with
        | b1 :: r1 => is_cont b1 && utf8_valid r1
        | _ => false
        end
      else if c <? 0xF0 then
        match r0 with
        | b1 :: b2 :: r2 =>
            (if c =? 0xE0 then in_range 0xA0 0xBF b1
             else if c =? 0xED then in_range 0x80 0x9F b1
             else is_cont b1)
            && is_cont b2 && utf8_valid r2
        | _ => false
        end
      else if c <? 0xF5 then
        match r0 with
        | b1 :: b2 :: b3 :: r3 =>
            (if c =? 0xF0 then in_range 0x90 0xBF b1
             else if c =? 0xF4 then in_range 0x80 0x8F b1
             else is_cont b1)
            && is_cont b2 && is_cont b3 && utf8_valid r3
        | _ => false
        end
      else false
  end.

(** ** The world outside the process *)

Inductive Event : Type :=
| EvOpen (port : string) (baud : Z)          (* serial.Serial(port, baudrate) succeeded *)
| EvOpenFailed (port : string)               (* ... raised *)
| EvInWaiting (port : string)                (* serial_port.in_waiting *)
| EvRead (port : string) (n : nat)           (* serial_port.read(n) *)
| EvClose (port : string)                    (* serial_port.close() *)
| EvPrint (line : string)                    (* print(line) *)
| EvFileOpen (name : string)                 (* open(name, "wb") *)
| EvFileWrite (name : string) (data : list byte). (* file.write(data) *)

Record World : Type := mkWorld {
  openable : string -> bool;       (* the ports that can be opened *)
  writable : string -> bool;       (* the files that can be opened for writing *)
  files : gmap string (list byte); (* contents of the files on disk *)
  events : list Event              (* what the process did, oldest first *)
}.

Definition log (e : Event) (w : World) : World :=
  mkWorld (openable w) (writable w) (files w) (events w ++ [e]).

Definition log_all (es : list Event) (w : World) : World :=
  mkWorld (openable w) (writable w) (files w) (events w ++ es).

Definition set_files (fs : gmap string (list byte)) (w : World) : World :=
  mkWorld (openable w) (writable w) fs (events w).

(** Modelled from the spec: the external serial connection provider
    ([serial.Serial] of pyserial), which the repository only calls:
    open(port, baud_rate) gives a connection or fails; bytes_available gives
    a count; read(count) gives exactly that many bytes; close.  [in_buffer]
    holds the bytes received by the device and not yet read. *)
Record Serial : Type := mkSerial {
  port : string;
  baudrate : Z;
  is_open : bool;
  in_buffer : list byte
}.

(** ** class SerialPipeline *)

Record Pipeline : Type := mkPipeline {
  port_name : string;
  serial_port : Serial;
  delimeter : Z;
  verbose : bool;
  cache : list byte;          (* bytearray *)
  lines : list (list byte)    (* list of bytes objects *)
}.

Definition set_serial_port (s : Serial) (p : Pipeline) : Pipeline :=
  mkPipeline (port_name p) s (delimeter p) (verbose p) (cache p) (lines p).

Definition set_cache (c : list byte) (p : Pipeline) : Pipeline :=
  mkPipeline (port_name p) (serial_port p) (delimeter p) (verbose p) c (lines p).

Definition set_lines (l : list (list byte)) (p : Pipeline) : Pipeline :=
  mkPipeline (port_name p) (serial_port p) (delimeter p) (verbose p) (cache p) l.

(** A method body runs on [self] and the world. *)
Definition Self : Type := Pipeline * World.

Definition get_self : Py.M Self Pipeline := fun s => (Return (fst s), s).

Definition modify_self (f : Pipeline -> Pipeline) : Py.M Self unit :=
  Py.modify (fun s : Self => (f (fst s), snd s)).

Definition emit (e : Event) : Py.M Self unit :=
  Py.modify (fun s : Self => (fst s, log e (snd s))).

(** [print(line)] *)
Definition print (line : string) : Py.M Self unit := emit (EvPrint line).

(** [bs.decode("utf-8")]: a [str] is represented by its UTF-8 bytes. *)
Definition decode {S} (bs : list byte) : Py.M S string :=
  if utf8_valid bs then Py.ret (string_of_list_byte bs)
  else Py.raise UnicodeDecodeError.

(** [serial.Serial(port_name, baudrate=baud_rate)] *)
Definition Serial_open (name : string) (baud : Z) : Py.M World Serial :=
  fun w =>
    if openable w name
    then (Return (mkSerial name baud true []), log (EvOpen name baud) w)
    else (Raise SerialException, log (EvOpenFailed name) w).

(** [self.serial_port.in_waiting] *)
Definition in_waiting : Py.M Self nat :=
  self <- get_self;;
  emit (EvInWaiting (port (serial_port self)));;;
  Py.ret (length (in_buffer (serial_port self))).

(** [self.serial_port.read(n)] *)
Definition read (n : nat) : Py.M Self (list byte) :=
  self <- get_self;;
  let s := serial_port self in
  emit (EvRead (port s) n);;;
  modify_self (set_serial_port
    (mkSerial (port s) (baudrate s) (is_open s) (drop n (in_buffer s))));;;
  Py.ret (take n (in_buffer s)).

(** [SerialPipeline.__init__] *)
Definition SerialPipeline_init (name : string) (baud_rate : Z)
    (delim : list byte) (verb : bool) : Py.M World Pipeline :=
  sp <- Serial_open name baud_rate;;
  Py.ret (mkPipeline name sp (int_from_bytes delim) verb [] []).

(** The body of the loop [for data_byte in data] of [update]. *)
Definition update_byte (data_byte : byte) : Py.M Self unit :=
  self <- get_self;;
  if byte_val data_byte =? delimeter self then
    (if verbose self then
       text <- decode (cache self);;
       print (port_name self ++ ": " ++ text)
     else Py.ret tt);;;
    modify_self (fun p => set_lines (lines p ++ [cache p]) p);;;
    modify_self (set_cache [])
  else
    modify_self (fun p => set_cache (cache p ++ [data_byte]) p).

(** [SerialPipeline.update] *)
Definition update : Py.M Self unit :=
  n <- in_waiting;;
  if (0 <? n)%nat then
    data <- read n;;
    Py.for_each data update_byte
  else Py.ret tt.

(** [SerialPipeline.close] *)
Definition close : Py.M Self unit :=
  self <- get_self;;
  let s := serial_port self in
  emit (EvClose (port s));;;
  modify_self (set_serial_port
    (mkSerial (port s) (baudrate s) false (in_buffer s))).

(** [open(file_name, "wb")]: creates or truncates the file. *)
Definition file_open (name : string) : Py.M Self unit :=
  fun s =>
    if writable (snd s) name
    then (Return tt,
          (fst s, log (EvFileOpen name)
                    (set_files (<[name := []]> (files (snd s))) (snd s))))
    else (Raise OSError, s).

(** [file.write(data)] on the file opened under [name]. *)
Definition file_write (name : string) (data : list byte) : Py.M Self unit :=
  Py.modify (fun s : Self =>
    (fst s, log (EvFileWrite name data)
              (set_files (<[name := default [] (files (snd s) !! name) ++ data]>
                            (files (snd s))) (snd s)))).

(** [SerialPipeline.file_dump] *)
Definition file_dump : Py.M Self unit :=
  self <- get_self;;
  let file_name := (port_name self ++ "_data.txt")%string in
  file_open file_name;;;
  self <- get_self;;
  Py.for_each (lines self) (fun line => file_write file_name line).

(** ** The device side of a port *)

(** The device sends [data]: it is queued behind what is still unread. *)
Definition arrive (data : list byte) (p : Pipeline) : Pipeline :=
  let s := serial_port p in
  set_serial_port
    (mkSerial (port s) (baudrate s) (is_open s) (in_buffer s ++ data)) p.

(** A byte sequence fed to the pipeline in chunks, one [update] after each
    chunk has arrived; a call that raises ends the sequence of calls. *)
Definition poll_chunks (chunks : list (list byte)) : Py.M Self unit :=
  Py.for_each chunks (fun chunk => modify_self (arrive chunk);;; update).

(** ** The driver [main] *)

(** The state of [main]: its list [pipelines] and the world. *)
Definition Driver : Type := list Pipeline * World.

Fixpoint for_pipelines_from (body : Py.M Self unit) (ps : list Pipeline)
    (w : World) : outcome unit * Driver :=
  match ps with
  | [] => (Return tt, ([], w))
  | p :: rest =>
      match body (p, w) with
      | (Return _, (p', w')) =>
          let r := for_pipelines_from body rest w' in
          (fst r, (p' :: fst (snd r), snd (snd r)))
      | (Raise e, (p', w')) => (Raise e, (p' :: rest, w'))
      end
  end.

(** [for pipeline in pipelines: body], each object updated in place. *)
Definition for_pipelines (body : Py.M Self unit) : Py.M Driver unit :=
  fun d => for_pipelines_from body (fst d) (snd d).

(** [pipelines.append(SerialPipeline(name, baud_rate, delimeter, verbose))] *)
Definition construct (name : string) (baud_rate : Z) (delim : list byte)
    (verb : bool) : Py.M Driver unit :=
  fun d =>
    match SerialPipeline_init name baud_rate delim verb (snd d) with
    | (Return p, w') => (Return tt, (fst d ++ [p], w'))
    | (Raise e, w') => (Raise e, (fst d, w'))
    end.

(** [print(line)] in [main]. *)
Definition say (line : string) : Py.M Driver unit :=
  Py.modify (fun d : Driver => (fst d, log (EvPrint line) (snd d))).

(** What the devices send during one iteration of the [while] loop, port by
    port in list order (nothing for a port without an entry). *)
Fixpoint deliver (arrivals : list (list byte)) (ps : list Pipeline)
    : list Pipeline :=
  match ps, arrivals with
  | p :: ps', a :: arrivals' => arrive a p :: deliver arrivals' ps'
  | _, _ => ps
  end.

(** One iteration of [while True]: [for pipeline in pipelines:
    pipeline.update()]. *)
Definition poll_round (arrivals : list (list byte)) : Py.M Driver unit :=
  Py.modify (fun d : Driver => (deliver arrivals (fst d), snd d));;;
  for_pipelines update.

(** [while True: ...]: the loop has no exit of its own.  The run is driven by
    the list of rounds the devices supply; the operator's interrupt is
    delivered between two iterations, when the rounds are used up. *)
Fixpoint poll_loop (rounds : list (list (list byte))) : Py.M Driver unit :=
  match rounds with
  | [] => Py.raise KeyboardInterrupt
  | arrivals :: rest => poll_round arrivals;;; poll_loop rest
  end.

(** The body of the last loop of [main]. *)
Definition save_one : Py.M Self unit :=
  self <- get_self;;
  print ("Saving data from port " ++ port_name self);;;
  file_dump.

(** [main], run against the rounds the devices supply. *)
Definition main (ports : list string) (baud_rate : Z) (delim : list byte)
    (verb save_to_file : bool) (rounds : list (list (list byte)))
    : Py.M Driver unit :=
  Py.for_each ports (fun name => construct name baud_rate delim verb);;;
  say "All ports opened!";;;
  Py.try_except (poll_loop rounds) KeyboardInterrupt
    (say "Closing all serial ports!";;; for_pipelines close);;;
  if save_to_file then for_pipelines save_one else Py.ret tt.

(** [main] up to the end of its [while] loop, without the handler. *)
Definition polling (ports : list string) (baud_rate : Z) (delim : list byte)
    (verb : bool) (rounds : list (list (list byte))) : Py.M Driver unit :=
  Py.for_each ports (fun name => construct name baud_rate delim verb);;;
  say "All ports opened!";;;
  poll_loop rounds.

(** A process starts with no pipelines, no files and an empty trace. *)
Definition boot (can_open can_write : string -> bool) : Driver :=
  ([], mkWorld can_open can_write ∅ []).


(** ** Vocabulary of the properties *)

#[global] Instance byte_eq_dec : EqDecision byte := Byte.byte_eq_dec.

(** The loop [for data_byte in data] of [update]. *)
Definition process (data : list byte) : Py.M Self unit :=
  Py.for_each data update_byte.

(** [input] is [recs], each record followed by one delimiter [d], and then
    [rest]; no record and no rest holds [d]. *)
Definition Framed (d : byte) (input : list byte) (recs : list (list byte))
    (rest : list byte) : Prop :=
  input = concat (map (fun r => r ++ [d]) recs) ++ rest
  /\ Forall (fun r => d ∉ r) recs
  /\ d ∉ rest.

(** How often [d] occurs in [input]. *)
Definition occurrences (d : byte) (input : list byte) : nat :=
  length (filter (fun x => x = d) input).

(** [input] with every [d] removed. *)
Definition strip (d : byte) (input : list byte) : list byte :=
  filter (fun x => x <> d) input.

(** The bytes of [input] after its last [d] (all of it when it has none). *)
Fixpoint since_last (d : byte) (input : list byte) : list byte :=
  match input with
  | [] => []
  | x :: rest =>
      if decide (d ∈ rest) then since_last d rest
      else if decide (x = d) then rest
      else x :: rest
  end.

(** The events of closing and of dumping. *)
Definition is_shutdown_event (e : Event) : bool :=
  match e with
  | EvClose _ | EvFileOpen _ | EvFileWrite _ _ => true
  | _ => false
  end.

(** The trace of one pipeline's turn in the last loop of [main]. *)
Definition dump_trace (p : Pipeline) : list Event :=
  EvPrint ("Saving data from port " ++ port_name p)
  :: EvFileOpen (port_name p ++ "_data.txt")
  :: map (EvFileWrite (port_name p ++ "_data.txt")) (lines p).

(** A pipeline as [__init__] leaves it. *)
Definition fresh (name : string) (baud_rate : Z) (delim : list byte)
    (verb : bool) : Pipeline :=
  mkPipeline name (mkSerial name baud_rate true []) (int_from_bytes delim)
    verb [] [].

(** A world in which every port opens and every file can be written. *)
Definition calm : World := mkWorld (fun _ => true) (fun _ => true) ∅ [].

(** The pipeline once [read] has taken everything that was waiting. *)
Definition drained (p : Pipeline) : Pipeline :=
  let s := serial_port p in
  set_serial_port (mkSerial (port s) (baudrate s) (is_open s) []) p.

(** Two runs end alike: the same outcome and the same pipeline object (the
    worlds may differ, for instance in the number of reads logged). *)
Definition agree (a c : outcome unit * Self) : Prop :=
  fst a = fst c /\ fst (snd a) = fst (snd c).

(** What polling never changes in a pipeline: its name, the name of its
    port and its verbose flag. *)
Definition kept (p p' : Pipeline) : Prop :=
  port_name p' = port_name p
  /\ port (serial_port p') = port (serial_port p)
  /\ verbose p' = verbose p.

(** The pipeline after [close]. *)
Definition closed (p : Pipeline) : Pipeline :=
  set_serial_port
    (mkSerial (port (serial_port p)) (baudrate (serial_port p)) false
       (in_buffer (serial_port p))) p.


(** The console line of a verbose pipeline for the record [r]. *)
Definition echo (p : Pipeline) (r : list byte) : Event :=
  EvPrint (port_name p ++ ": " ++ string_of_list_byte r).

(** The name of the file [file_dump] writes. *)
Definition file_of (p : Pipeline) : string := port_name p ++ "_data.txt".

(** What one [update] of the pipeline [p] adds to the trace. *)
Definition poll_trace (p : Pipeline) : list Event :=
  events (snd (snd (update (p, calm)))).

(** ** The script body ([if __name__ == "__main__"]) *)

Module Script.

(** The text printed for [-h]. *)
Definition usage : string := "
            Usage: serial_monitor.py [options] [ports] 

            Options:
                -h              opens help menu
                -b [int]        specify the baud rate (defaults to 115200)
                -v              if used, serial data will be printed on terminal
                -f              if used, serial data will be saved to a file on program completion 
                -d [char]       specify the delimeter (defaults to '\n')

            After using any options, list the desired serial ports, one after another, seperated by a space 
                ex: serial_monitor.py -v -f COM1 COM3 COM13
            ".

(** The local variables set by the options. *)
Record locals : Type := mkLocals {
  baud_rate : Z;
  verbose : bool;
  save_to_file : bool;
  delimiter : list byte
}.

Definition defaults : locals := mkLocals 115200 false false [Byte.x0a].

(** One turn of [for cmd, param in opts].  [int] stands for the builtin
    [int] on a [str]: [None] when it raises [ValueError].  A [str] is
    represented by its UTF-8 bytes, so [bytes(param, "utf-8")] is the bytes
    of [param]. *)
Definition option_step (int : string -> option Z) (l : locals)
    (opt : string * string) : option locals :=
  let (cmd, param) := opt in
  if String.eqb cmd "-b" then
    match int param with
    | Some n => Some (mkLocals n (verbose l) (save_to_file l) (delimiter l))
    | None => None
    end
  else if String.eqb cmd "-v" then
    Some (mkLocals (baud_rate l) true (save_to_file l) (delimiter l))
  else if String.eqb cmd "-f" then
    Some (mkLocals (baud_rate l) (verbose l) true (delimiter l))
  else if String.eqb cmd "-d" then
    Some (mkLocals (baud_rate l) (verbose l) (save_to_file l)
            (list_byte_of_string param))
  else Some l.

(** [for cmd, param in opts: ...], stopped by the first [ValueError]. *)
Fixpoint read_options (int : string -> option Z) (l : locals)
    (opts : list (string * string)) : option locals :=
  match opts with
  | [] => Some l
  | opt :: rest =>
      match option_step int l opt with
      | Some l' => read_options int l' rest
      | None => None
      end
  end.

(** [('-h', '') in opts] *)
Definition has_help (opts : list (string * string)) : bool :=
  existsb (fun opt => String.eqb (fst opt) "-h" && String.eqb (snd opt) "")
    opts.

(** How the script ends: normally, by the [ValueError] of [int], or by what
    [main] raises. *)
Inductive ending : Type :=
| Finished
| ValueError
| Uncaught (e : exn).

(** The script body, from the pair [(opts, args)] that [getopt.getopt]
    returned. *)
Definition run (int : string -> option Z) (opts : list (string * string))
    (args : list string) (rounds : list (list (list byte))) (d : Driver)
    : ending * Driver :=
  if has_help opts then (Finished, (fst d, log (EvPrint usage) (snd d)))
  else
    match read_options int defaults opts with
    | None => (ValueError, d)
    | Some l =>
        match main args (baud_rate l) (delimiter l) (verbose l)
                (save_to_file l) rounds d with
        | (Return _, d') => (Finished, d')
        | (Raise e, d') => (Uncaught e, d')
        end
    end.

End Script.

(** ** Bytes and integers *)

Lemma byte_val_range (x : byte) : 0 <= byte_val x <= 255.
Proof.
  unfold byte_val. pose proof (Byte.to_N_bounded x). lia.
Qed.

Lemma byte_val_inj (x y : byte) : byte_val x = byte_val y -> x = y.
Proof.
  unfold byte_val. intros H. apply N2Z.inj in H.
  pose proof (Byte.of_to_N x) as Hx. rewrite H, Byte.of_to_N in Hx.
  congruence.
Qed.

Lemma byte_val_eqb (x y : byte) :
  (byte_val x =? byte_val y) = bool_decide (x = y).
Proof.
  case_bool_decide as E.
  - subst. apply Z.eqb_refl.
  - apply Z.eqb_neq. intros H. apply E, byte_val_inj, H.
Qed.

Lemma int_from_bytes_nonneg (bs : list byte) : 0 <= int_from_bytes bs.
Proof.
  induction bs as [|x bs IH]; simpl; [lia|].
  pose proof (byte_val_range x). lia.
Qed.

Lemma byte_val_zero (x : byte) : byte_val x = 0 -> x = "000"%byte.
Proof. intros H. apply byte_val_inj. rewrite H. reflexivity. Qed.

(** ** The monad *)

Lemma bind_run {S A B} (m : Py.M S A) (k : A -> Py.M S B) (s : S) :
  Py.bind m k s
  = match m s with
    | (Return a, s') => k a s'
    | (Raise e, s') => (Raise e, s')
    end.
Proof. reflexivity. Qed.

Lemma for_each_app {S A} (l1 l2 : list A) (body : A -> Py.M S unit) (s : S) :
  Py.for_each (l1 ++ l2) body s
  = (Py.for_each l1 body;;; Py.for_each l2 body) s.
Proof.
  revert s. induction l1 as [|x l1 IH]; intros s; simpl.
  - reflexivity.
  - unfold Py.bind in *. destruct (body x s) as [[a|e] s']; [|reflexivity].
    apply IH.
Qed.

(** ** One byte of [update] *)

Lemma update_byte_other (x : byte) (p : Pipeline) (w : World) :
  byte_val x <> delimeter p ->
  update_byte x (p, w) = (Return tt, (set_cache (cache p ++ [x]) p, w)).
Proof.
  intros H. unfold update_byte, Py.bind, get_self. simpl.
  apply Z.eqb_neq in H. rewrite H. reflexivity.
Qed.

Lemma update_byte_quiet (x : byte) (p : Pipeline) (w : World) :
  byte_val x = delimeter p -> verbose p = false ->
  update_byte x (p, w)
  = (Return tt, (set_cache [] (set_lines (lines p ++ [cache p]) p), w)).
Proof.
  intros H V. unfold update_byte, Py.bind, get_self. simpl.
  apply Z.eqb_eq in H. rewrite H, V. reflexivity.
Qed.

Lemma update_byte_echo (x : byte) (p : Pipeline) (w : World) :
  byte_val x = delimeter p -> verbose p = true ->
  utf8_valid (cache p) = true ->
  update_byte x (p, w)
  = (Return tt,
     (set_cache [] (set_lines (lines p ++ [cache p]) p),
      log (EvPrint (port_name p ++ ": " ++ string_of_list_byte (cache p))) w)).
Proof.
  intros H V U. unfold update_byte, Py.bind, get_self, decode. simpl.
  apply Z.eqb_eq in H. rewrite H, V, U. reflexivity.
Qed.

Lemma update_byte_undecodable (x : byte) (p : Pipeline) (w : World) :
  byte_val x = delimeter p -> verbose p = true ->
  utf8_valid (cache p) = false ->
  update_byte x (p, w) = (Raise UnicodeDecodeError, (p, w)).
Proof.
  intros H V U. unfold update_byte, Py.bind, get_self, decode. simpl.
  apply Z.eqb_eq in H. rewrite H, V, U. reflexivity.
Qed.

(** What one byte can do: the four cases of the loop body. *)
Lemma update_byte_cases (x : byte) (p : Pipeline) (w : World) :
  (byte_val x <> delimeter p
   /\ update_byte x (p, w) = (Return tt, (set_cache (cache p ++ [x]) p, w)))
  \/ (byte_val x = delimeter p
      /\ exists es,
          update_byte x (p, w)
          = (Return tt, (set_cache [] (set_lines (lines p ++ [cache p]) p),
                         log_all es w))
          /\ Forall (fun e => is_shutdown_event e = false) es)
  \/ (byte_val x = delimeter p /\ verbose p = true
      /\ utf8_valid (cache p) = false
      /\ update_byte x (p, w) = (Raise UnicodeDecodeError, (p, w))).
Proof.
  destruct (Z.eq_dec (byte_val x) (delimeter p)) as [E|E].
  - destruct (verbose p) eqn:V.
    + destruct (utf8_valid (cache p)) eqn:U.
      * right; left. split; [exact E|]. eexists [_].
        split; [apply update_byte_echo; assumption | repeat constructor].
      * right; right. repeat split; try assumption.
        apply update_byte_undecodable; assumption.
    + right; left. split; [exact E|]. exists []. split; [|constructor].
      rewrite update_byte_quiet by assumption.
      unfold log_all. rewrite app_nil_r. destruct w; reflexivity.
  - left. split; [exact E|]. apply update_byte_other, E.
Qed.

(** ** Framed inputs *)

Lemma Framed_nil (d : byte) (rest : list byte) :
  d ∉ rest -> Framed d rest [] rest.
Proof. intros H. repeat split; [constructor | exact H]. Qed.

Lemma Framed_cons (d : byte) (c input : list byte) recs rest :
  d ∉ c -> Framed d input recs rest ->
  Framed d (c ++ d :: input) (c :: recs) rest.
Proof.
  intros Hc (E & F & R). repeat split.
  - simpl. rewrite E, <- !app_assoc. reflexivity.
  - constructor; assumption.
  - exact R.
Qed.

Lemma Framed_occurrences (d : byte) input recs rest :
  Framed d input recs rest -> length recs = occurrences d input.
Proof.
  intros (E & F & R). subst input. unfold occurrences.
  induction F as [|r recs Hr F IH]; simpl.
  - symmetry. apply length_zero_iff_nil.
    induction rest as [|x rest IHr]; [reflexivity|].
    apply not_elem_of_cons in R as [Hx R].
    rewrite filter_cons_False by congruence. apply IHr, R.
  - rewrite <- !app_assoc, filter_app. simpl.
    rewrite filter_cons_True by reflexivity.
    rewrite length_app. simpl. rewrite <- IH.
    replace (filter (fun x => x = d) r) with (@nil byte); [reflexivity|].
    clear -Hr. induction r as [|x r IHr]; [reflexivity|].
    apply not_elem_of_cons in Hr as [Hx Hr].
    rewrite filter_cons_False by congruence. apply IHr, Hr.
Qed.

Lemma strip_free (d : byte) (l : list byte) : d ∉ l -> strip d l = l.
Proof.
  unfold strip. induction l as [|x l IH]; intros H; [reflexivity|].
  apply not_elem_of_cons in H as [Hx H].
  rewrite filter_cons_True by congruence. f_equal. apply IH, H.
Qed.

Lemma Framed_strip (d : byte) input recs rest :
  Framed d input recs rest -> strip d input = concat recs ++ rest.
Proof.
  intros (E & F & R). subst input.
  induction F as [|r recs Hr F IH].
  - simpl. apply strip_free, R.
  - simpl. unfold strip in *. rewrite <- !app_assoc, filter_app. simpl.
    rewrite filter_cons_False by (intros H; apply H; reflexivity).
    rewrite IH. f_equal. apply (strip_free d), Hr.
Qed.

Lemma since_last_free (d : byte) (l : list byte) :
  d ∉ l -> since_last d l = l.
Proof.
  destruct l as [|x l]; [reflexivity|]. intros H. simpl.
  apply not_elem_of_cons in H as [Hx H].
  rewrite decide_False by exact H. rewrite decide_False by congruence.
  reflexivity.
Qed.

Lemma since_last_app_delim (d : byte) (c input : list byte) :
  since_last d (c ++ d :: input) = since_last d (d :: input).
Proof.
  induction c as [|x c IH]; [reflexivity|].
  change ((x :: c) ++ d :: input) with (x :: (c ++ d :: input)).
  cbn [since_last]. rewrite decide_True; [exact IH|].
  apply elem_of_app. right. apply elem_of_cons. left. reflexivity.
Qed.

Lemma since_last_delim (d : byte) (input : list byte) :
  since_last d (d :: input) = since_last d input.
Proof.
  cbn [since_last]. destruct (decide (d ∈ input)) as [H|H]; [reflexivity|].
  rewrite decide_True by reflexivity. symmetry. apply since_last_free, H.
Qed.

Lemma Framed_since_last (d : byte) input recs rest :
  Framed d input recs rest -> rest = since_last d input.
Proof.
  intros (E & F & R). subst input.
  induction F as [|r recs Hr F IH]; simpl.
  - symmetry. apply since_last_free, R.
  - rewrite <- !app_assoc. simpl.
    rewrite since_last_app_delim, since_last_delim. exact IH.
Qed.

(** A framing is determined by the input. *)
Lemma Framed_unique (d : byte) input recs1 rest1 recs2 rest2 :
  Framed d input recs1 rest1 -> Framed d input recs2 rest2 ->
  recs1 = recs2 /\ rest1 = rest2.
Proof.
  intros H1 H2. split.
  - destruct H1 as (E1 & F1 & R1), H2 as (E2 & F2 & R2). subst input.
    revert recs2 F2 E2.
    induction F1 as [|r1 recs1 Hr1 F1 IH]; intros recs2 F2 E2.
    + destruct F2 as [|r2 recs2 Hr2 F2]; [reflexivity|]. exfalso.
      simpl in E2. apply R1. rewrite E2, <- !app_assoc.
      apply elem_of_app. right. apply elem_of_cons. left. reflexivity.
    + destruct F2 as [|r2 recs2 Hr2 F2].
      * exfalso. simpl in E2. apply R2. rewrite <- E2, <- !app_assoc.
        apply elem_of_app. right. apply elem_of_cons. left. reflexivity.
      * simpl in E2. rewrite <- !app_assoc in E2. simpl in E2.
        assert (r1 = r2) as ->.
        { clear -Hr1 Hr2 E2. revert r2 Hr2 E2.
          induction r1 as [|x r1 IHr]; intros [|y r2] Hr2 E2; simpl in E2.
          - reflexivity.
          - exfalso. apply Hr2. injection E2 as -> _. apply elem_of_cons. by left.
          - exfalso. apply Hr1. injection E2 as -> _. apply elem_of_cons. by left.
          - injection E2 as -> E2. f_equal.
            apply not_elem_of_cons in Hr1 as [_ Hr1].
            apply not_elem_of_cons in Hr2 as [_ Hr2].
            apply IHr; assumption. }
        f_equal. apply IH; [exact F2|].
        apply app_inv_head in E2. injection E2 as E2. exact E2.
  - rewrite (Framed_since_last _ _ _ _ H1), (Framed_since_last _ _ _ _ H2).
    reflexivity.
Qed.

(** ** The byte loop of [update] *)

Lemma agree_refl (a : outcome unit * Self) : agree a a.
Proof. split; reflexivity. Qed.

Lemma agree_sym (a c : outcome unit * Self) : agree a c -> agree c a.
Proof. intros [H1 H2]. split; congruence. Qed.

Lemma agree_trans (a c e : outcome unit * Self) :
  agree a c -> agree c e -> agree a e.
Proof. intros [H1 H2] [H3 H4]. split; congruence. Qed.

(** The loop body looks at the pipeline only: the world is written to, never
    read. *)
Lemma update_byte_world (x : byte) (p : Pipeline) (w1 w2 : World) :
  agree (update_byte x (p, w1)) (update_byte x (p, w2)).
Proof.
  unfold agree, update_byte, Py.bind, get_self, decode. simpl.
  destruct (byte_val x =? delimeter p); [|split; reflexivity].
  destruct (verbose p); [|split; reflexivity].
  destruct (utf8_valid (cache p)); split; reflexivity.
Qed.

Lemma process_world (data : list byte) (p : Pipeline) (w1 w2 : World) :
  agree (process data (p, w1)) (process data (p, w2)).
Proof.
  revert p w1 w2. induction data as [|x data IH]; intros p w1 w2.
  - split; reflexivity.
  - unfold process in *. simpl. unfold Py.bind.
    destruct (update_byte_world x p w1 w2) as [Ho Hp].
    destruct (update_byte x (p, w1)) as [[[]|e1] [p1 v1]],
             (update_byte x (p, w2)) as [[[]|e2] [p2 v2]];
      simpl in Ho, Hp; try discriminate; subst.
    + apply IH.
    + split; [exact Ho | reflexivity].
Qed.

Lemma process_app (pre post : list byte) (s : Self) :
  process (pre ++ post) s = (process pre;;; process post) s.
Proof. apply for_each_app. Qed.

(** Bytes that are not the delimiter pile up in the cache. *)
Lemma process_no_match (data : list byte) (p : Pipeline) (w : World) :
  Forall (fun x => byte_val x <> delimeter p) data ->
  process data (p, w) = (Return tt, (set_cache (cache p ++ data) p, w)).
Proof.
  revert p. induction data as [|x data IH]; intros p H.
  - unfold process. simpl. unfold Py.ret. rewrite app_nil_r.
    destruct p; reflexivity.
  - apply Forall_cons in H as [Hx H].
    unfold process in *. simpl. unfold Py.bind.
    rewrite update_byte_other by exact Hx.
    rewrite IH by exact H. simpl. rewrite <- app_assoc. reflexivity.
Qed.

(** The loop changes the cache and the record list only. *)
Lemma process_frame (data : list byte) (p : Pipeline) (w : World) r p' w' :
  process data (p, w) = (r, (p', w')) ->
  port_name p' = port_name p /\ serial_port p' = serial_port p
  /\ delimeter p' = delimeter p /\ verbose p' = verbose p
  /\ files w' = files w /\ openable w' = openable w
  /\ writable w' = writable w.
Proof.
  revert p w. induction data as [|x data IH]; intros p w H.
  - unfold process in H. simpl in H. injection H as <- <- <-. tauto.
  - unfold process in *. simpl in H. unfold Py.bind in H.
    destruct (update_byte_cases x p w) as [[_ E]|[[_ (es1 & E & _)]|(_ & _ & _ & E)]];
      rewrite E in H.
    + apply IH in H. simpl in H. exact H.
    + apply IH in H. simpl in H. exact H.
    + injection H as <- <- <-. tauto.
Qed.

(** The records emitted by a loop that completes, and the cache it leaves,
    frame the old cache followed by the data. *)
Lemma process_framed (d : byte) (data : list byte) (p : Pipeline) (w : World)
    p' w' :
  delimeter p = byte_val d -> d ∉ cache p ->
  process data (p, w) = (Return tt, (p', w')) ->
  exists recs, lines p' = lines p ++ recs
               /\ Framed d (cache p ++ data) recs (cache p').
Proof.
  revert p w. induction data as [|x data IH]; intros p w Hd Hc H.
  - unfold process in H. simpl in H. injection H as <- <-.
    exists []. rewrite !app_nil_r. split; [reflexivity|].
    apply Framed_nil, Hc.
  - unfold process in *. simpl in H. unfold Py.bind in H.
    destruct (update_byte_cases x p w) as [[N E]|[[M (es1 & E & _)]|(_ & _ & _ & E)]];
      rewrite E in H; [| |discriminate].
    + apply IH in H; [|exact Hd|].
      * destruct H as (recs & Hl & Hf). exists recs. simpl in Hl, Hf.
        rewrite <- app_assoc in Hf. split; assumption.
      * simpl. apply not_elem_of_app. split; [exact Hc|].
        intros Hx. apply list_elem_of_singleton in Hx. subst x.
        apply N. symmetry. exact Hd.
    + rewrite Hd in M. apply byte_val_inj in M. subst x.
      apply IH in H; [|exact Hd|apply not_elem_of_nil].
      destruct H as (recs & Hl & Hf). simpl in Hl, Hf.
      exists (cache p :: recs). split.
      * rewrite Hl, <- app_assoc. reflexivity.
      * apply Framed_cons; assumption.
Qed.

(** A loop that raises stops at a delimiter, in the state the bytes before it
    produced, and that state has an undecodable cache. *)
Lemma process_raise (data : list byte) (p : Pipeline) (w : World) e p' w' :
  process data (p, w) = (Raise e, (p', w')) ->
  exists pre x post,
    data = pre ++ x :: post /\ byte_val x = delimeter p
    /\ process pre (p, w) = (Return tt, (p', w'))
    /\ e = UnicodeDecodeError /\ verbose p = true
    /\ utf8_valid (cache p') = false.
Proof.
  revert p w. induction data as [|x data IH]; intros p w H.
  - unfold process in H. simpl in H. discriminate.
  - unfold process in *. simpl in H. unfold Py.bind in H.
    destruct (update_byte_cases x p w) as [[N E]|[[M (es1 & E & _)]|(M & V & U & E)]];
      rewrite E in H.
    + apply IH in H. destruct H as (pre & y & post & -> & My & Hp & He & Hv & Hu).
      exists (x :: pre), y, post. simpl in *.
      repeat split; try assumption.
      unfold Py.bind. rewrite E. exact Hp.
    + apply IH in H. destruct H as (pre & y & post & -> & My & Hp & He & Hv & Hu).
      exists (x :: pre), y, post. simpl in *.
      repeat split; try assumption.
      unfold Py.bind. rewrite E. exact Hp.
    + injection H as <- <- <-. exists [], x, data.
      repeat split; assumption.
Qed.

(** A quiet pipeline never raises. *)
Lemma process_quiet (data : list byte) (p : Pipeline) (w : World) :
  verbose p = false -> fst (process data (p, w)) = Return tt.
Proof.
  intros V. destruct (process data (p, w)) as [[[]|e] [p' w']] eqn:E.
  - reflexivity.
  - apply process_raise in E. destruct E as (_ & _ & _ & _ & _ & _ & _ & V' & _).
    congruence.
Qed.

(** ** [update] and sequences of polls *)

Lemma drained_idle (p : Pipeline) :
  in_buffer (serial_port p) = [] -> drained p = p.
Proof.
  destruct p as [n [sn sb so buf] dl v c l]. simpl. intros ->. reflexivity.
Qed.

Lemma arrive_idle (c : list byte) (p : Pipeline) :
  in_buffer (serial_port p) = [] ->
  in_buffer (serial_port (arrive c p)) = c /\ drained (arrive c p) = p.
Proof.
  destruct p as [n [sn sb so buf] dl v ca l]. simpl. intros ->.
  split; reflexivity.
Qed.

(** Nothing waiting: one look at the port, and nothing else. *)
Lemma update_idle (p : Pipeline) (w : World) :
  in_buffer (serial_port p) = [] ->
  update (p, w) = (Return tt, (p, log (EvInWaiting (port (serial_port p))) w)).
Proof.
  intros H. unfold update, in_waiting, Py.bind, get_self, emit, Py.modify,
    Py.ret. simpl. rewrite H. reflexivity.
Qed.

(** Something waiting: all of it is read in one call and goes through the
    byte loop. *)
Lemma update_busy (p : Pipeline) (w : World) :
  in_buffer (serial_port p) <> [] ->
  update (p, w)
  = process (in_buffer (serial_port p))
      (drained p,
       log (EvRead (port (serial_port p)) (length (in_buffer (serial_port p))))
         (log (EvInWaiting (port (serial_port p))) w)).
Proof.
  intros H.
  assert ((0 <? length (in_buffer (serial_port p)))%nat = true) as L.
  { apply Nat.ltb_lt. destruct (in_buffer (serial_port p)); [congruence|].
    simpl. lia. }
  unfold update, in_waiting, read, Py.bind, get_self, emit,
    modify_self, Py.modify, Py.ret. simpl. rewrite L. simpl.
  rewrite take_ge by lia. rewrite drop_all. reflexivity.
Qed.

Lemma update_agree (p : Pipeline) (w : World) :
  agree (update (p, w)) (process (in_buffer (serial_port p)) (drained p, w)).
Proof.
  destruct (in_buffer (serial_port p)) as [|x buf] eqn:E.
  - rewrite update_idle by exact E. rewrite drained_idle by exact E.
    split; reflexivity.
  - rewrite update_busy by congruence. rewrite E. apply process_world.
Qed.

(** Polling chunk by chunk ends like one pass of the byte loop over the whole
    sequence. *)
Lemma poll_chunks_agree (chunks : list (list byte)) (p : Pipeline) (w : World) :
  in_buffer (serial_port p) = [] ->
  agree (poll_chunks chunks (p, w)) (process (concat chunks) (p, w)).
Proof.
  revert p w. induction chunks as [|c chunks IH]; intros p w Hb.
  - split; reflexivity.
  - unfold poll_chunks in *. simpl. rewrite process_app, !bind_run.
    unfold modify_self at 1, Py.modify. simpl.
    destruct (arrive_idle c p Hb) as [Hc Hd].
    pose proof (update_agree (arrive c p) w) as [Ho Hp].
    rewrite Hc, Hd in Ho, Hp.
    destruct (update (arrive c p, w)) as [[[]|e1] [p1 w1]],
             (process c (p, w)) as [[[]|e2] [p2 w2]] eqn:E;
      simpl in Ho, Hp; try discriminate; subst p2.
    + apply agree_trans with (process (concat chunks) (p1, w1)).
      * apply IH. apply process_frame in E as (_ & -> & _). exact Hb.
      * apply process_world.
    + split; [exact Ho | reflexivity].
Qed.

Lemma log_all_log_all (es1 es2 : list Event) (w : World) :
  log_all es2 (log_all es1 w) = log_all (es1 ++ es2) w.
Proof. unfold log_all. simpl. rewrite app_assoc. reflexivity. Qed.

Lemma set_cache_same (p : Pipeline) : set_cache (cache p ++ []) p = p.
Proof. destruct p. unfold set_cache. simpl. rewrite app_nil_r. reflexivity. Qed.

(** One poll of a chunk without a byte equal to the stored delimiter. *)
Lemma update_no_match (c : list byte) (p : Pipeline) (w : World) :
  Forall (fun x => byte_val x <> delimeter p) c ->
  in_buffer (serial_port p) = [] ->
  exists es,
    update (arrive c p, w)
    = (Return tt, (set_cache (cache p ++ c) p, log_all es w))
    /\ Forall (fun e => is_shutdown_event e = false) es.
Proof.
  intros Hc Hb. destruct (arrive_idle c p Hb) as [Ec Ed].
  destruct c as [|x c].
  - rewrite update_idle by exact Ec.
    rewrite <- (drained_idle _ Ec), Ed, set_cache_same.
    eexists [_]. split; [reflexivity|]. repeat constructor.
  - rewrite update_busy by (rewrite Ec; discriminate).
    rewrite Ec, Ed, process_no_match by exact Hc.
    eexists [_; _]. split.
    + unfold log_all, log. simpl. rewrite <- app_assoc. reflexivity.
    + repeat constructor.
Qed.

(** Chunks without a byte equal to the stored delimiter: every poll returns,
    no record is emitted and the cache grows by the chunks. *)
Lemma poll_chunks_no_match (chunks : list (list byte)) (p : Pipeline)
    (w : World) :
  Forall (Forall (fun x => byte_val x <> delimeter p)) chunks ->
  in_buffer (serial_port p) = [] ->
  exists es,
    poll_chunks chunks (p, w)
    = (Return tt, (set_cache (cache p ++ concat chunks) p, log_all es w))
    /\ Forall (fun e => is_shutdown_event e = false) es.
Proof.
  revert p w. induction chunks as [|c chunks IH]; intros p w H Hb.
  - exists []. split; [|constructor]. unfold poll_chunks. simpl.
    unfold Py.ret, log_all. rewrite !app_nil_r. destruct p, w; reflexivity.
  - apply Forall_cons in H as [Hc H].
    destruct (update_no_match c p w Hc Hb) as (es1 & E1 & F1).
    destruct (IH (set_cache (cache p ++ c) p) (log_all es1 w) H Hb)
      as (es2 & E2 & F2).
    exists (es1 ++ es2). split; [|apply Forall_app; split; assumption].
    unfold poll_chunks in *. simpl. rewrite !bind_run.
    unfold modify_self at 1, Py.modify. simpl.
    rewrite E1, E2, log_all_log_all. simpl. rewrite <- app_assoc.
    reflexivity.
Qed.

(** ** C6: a poll that finds nothing *)

(** C6. A call of [update] when no byte is waiting returns normally; it
    leaves the whole pipeline, in particular the cache and the record list,
    as it was; and all it does is the look at [in_waiting]: no read, no
    console output, no file touched. *)
Theorem empty_poll_is_noop (p : Pipeline) (w : World) :
  in_buffer (serial_port p) = [] ->
  exists w',
    update (p, w) = (Return tt, (p, w'))
    /\ events w' = events w ++ [EvInWaiting (port (serial_port p))]
    /\ files w' = files w.
Proof.
  intros H. eexists. split; [apply update_idle, H|]. split; reflexivity.
Qed.

Lemma empty_poll_is_noop_witness :
  let p := mkPipeline "COM1" (mkSerial "COM1" 115200 true []) 10 true
             [Byte.x58; Byte.x59] [[Byte.x41]] in
  in_buffer (serial_port p) = []
  /\ exists w',
      update (p, calm) = (Return tt, (p, w'))
      /\ events w' = events calm ++ [EvInWaiting (port (serial_port p))]
      /\ files w' = files calm.
Proof.
  split; [reflexivity|]. apply empty_poll_is_noop. reflexivity.
Defined.

(** ** C2: split reads *)

(** C2. Starting from a pipeline with nothing unread on its port, feeding a
    byte sequence in one chunk (one [update]) and feeding it split into any
    chunks (one [update] per chunk) end with the same outcome and leave the
    same pipeline: the same record list and the same cache. *)
Theorem split_read_invariance (chunks : list (list byte)) (p : Pipeline)
    (w : World) :
  in_buffer (serial_port p) = [] ->
  let one := poll_chunks [concat chunks] (p, w) in
  let many := poll_chunks chunks (p, w) in
  fst one = fst many
  /\ lines (fst (snd one)) = lines (fst (snd many))
  /\ cache (fst (snd one)) = cache (fst (snd many)).
Proof.
  intros Hb one many.
  assert (agree one many) as [Ho Hp].
  { apply agree_trans with (process (concat chunks) (p, w)).
    - subst one. pose proof (poll_chunks_agree [concat chunks] p w Hb) as A.
      simpl in A. rewrite app_nil_r in A. exact A.
    - apply agree_sym, poll_chunks_agree, Hb. }
  rewrite Ho, Hp. repeat split.
Qed.

Lemma split_read_invariance_witness :
  let p := fresh "COM1" 115200 [Byte.x0a] true in
  let chunks := [[Byte.x41; Byte.x42]; [Byte.x0a; Byte.x43]; [];
                 [Byte.x44; Byte.x0a; Byte.x45]] in
  in_buffer (serial_port p) = []
  /\ lines (fst (snd (poll_chunks [concat chunks] (p, calm))))
     = lines (fst (snd (poll_chunks chunks (p, calm)))).
Proof.
  split; [reflexivity|].
  apply (split_read_invariance
           [[Byte.x41; Byte.x42]; [Byte.x0a; Byte.x43]; [];
            [Byte.x44; Byte.x0a; Byte.x45]]
           (fresh "COM1" 115200 [Byte.x0a] true) calm).
  reflexivity.
Defined.

(** ** C1: framing *)

Lemma poll_chunks_quiet (chunks : list (list byte)) (p : Pipeline) (w : World) :
  in_buffer (serial_port p) = [] -> verbose p = false ->
  fst (poll_chunks chunks (p, w)) = Return tt.
Proof.
  intros Hb V. destruct (poll_chunks_agree chunks p w Hb) as [-> _].
  apply process_quiet, V.
Qed.

Lemma poll_chunks_framed (d : byte) (chunks : list (list byte)) (p : Pipeline)
    (w : World) p' w' :
  delimeter p = byte_val d -> d ∉ cache p ->
  in_buffer (serial_port p) = [] ->
  poll_chunks chunks (p, w) = (Return tt, (p', w')) ->
  exists recs, lines p' = lines p ++ recs
               /\ Framed d (cache p ++ concat chunks) recs (cache p').
Proof.
  intros Hd Hc Hb H.
  destruct (poll_chunks_agree chunks p w Hb) as [Ho Hp].
  rewrite H in Ho, Hp. simpl in Ho, Hp.
  destruct (process (concat chunks) (p, w)) as [r [p2 w2]] eqn:E.
  simpl in Ho, Hp. subst r p2.
  apply (process_framed d) in E; assumption.
Qed.

(** C1, counterexample.  For a verbose pipeline the input FF 0A holds
    the delimiter once, yet no record is emitted, because the poll raises
    when it decodes the record FF for the console. *)
Lemma framing_fails_on_undecodable_record :
  let p := fresh "COM1" 115200 [Byte.x0a] true in
  let input := [Byte.xff; Byte.x0a] in
  let r := poll_chunks [input] (p, calm) in
  delimeter p = byte_val Byte.x0a
  /\ occurrences Byte.x0a input = 1%nat
  /\ fst r = Raise UnicodeDecodeError
  /\ lines (fst (snd r)) = [].
Proof. repeat split. Qed.

(** C1 (amended). A pipeline as the constructor leaves it, with the delimiter
    byte [d], is fed a byte sequence in chunks, one [update] per chunk.  When
    the pipeline is not verbose every call returns.  When every call returns,
    the record list and the cache frame the input: the input is the records,
    each followed by one [d], then the cache; no record holds [d]; and the
    number of records is the number of [d] in the input.  (That framing is
    unique, by [Framed_unique].) *)
Theorem framing_correct (d : byte) (chunks : list (list byte)) (p : Pipeline)
    (w : World) :
  delimeter p = byte_val d -> cache p = [] -> lines p = [] ->
  in_buffer (serial_port p) = [] ->
  (verbose p = false -> fst (poll_chunks chunks (p, w)) = Return tt)
  /\ forall p' w',
      poll_chunks chunks (p, w) = (Return tt, (p', w')) ->
      Framed d (concat chunks) (lines p') (cache p')
      /\ length (lines p') = occurrences d (concat chunks).
Proof.
  intros Hd Hc Hl Hb. split; [apply poll_chunks_quiet, Hb|].
  intros p' w' H.
  apply (poll_chunks_framed d) in H; [|exact Hd| |exact Hb].
  - destruct H as (recs & E & F). rewrite Hl in E. rewrite Hc in F.
    simpl in E, F. subst recs. split; [exact F|].
    apply Framed_occurrences in F. exact F.
  - rewrite Hc. apply not_elem_of_nil.
Qed.

Lemma framing_correct_witness :
  let p := fresh "COM1" 115200 [Byte.x0a] false in
  let chunks := [[Byte.x41; Byte.xff]; [Byte.x0a; Byte.x43];
                 [Byte.x44; Byte.x0a; Byte.x45]] in
  (delimeter p = byte_val Byte.x0a /\ cache p = [] /\ lines p = []
   /\ in_buffer (serial_port p) = [])
  /\ fst (poll_chunks chunks (p, calm)) = Return tt.
Proof.
  split; [repeat split|].
  apply (framing_correct Byte.x0a
           [[Byte.x41; Byte.xff]; [Byte.x0a; Byte.x43];
            [Byte.x44; Byte.x0a; Byte.x45]]
           (fresh "COM1" 115200 [Byte.x0a] false) calm);
    reflexivity.
Defined.

(** ** C4: the cache *)

Lemma since_last_snoc_delim (d : byte) (l : list byte) :
  since_last d (l ++ [d]) = [].
Proof.
  rewrite since_last_app_delim, since_last_delim. reflexivity.
Qed.

Lemma process_cache_free (d : byte) (data : list byte) (p : Pipeline)
    (w : World) r p' w' :
  delimeter p = byte_val d -> d ∉ cache p ->
  process data (p, w) = (r, (p', w')) ->
  (d ∉ cache p') /\ (lines p `prefix_of` lines p').
Proof.
  intros Hd Hc H.
  assert (forall data, process data (p, w) = (Return tt, (p', w')) ->
                       (d ∉ cache p') /\ (lines p `prefix_of` lines p')) as Ok.
  { intros data' H'. apply (process_framed d) in H'; [|assumption..].
    destruct H' as (recs & E & _ & _ & R). split; [exact R|].
    exists recs. exact E. }
  destruct r as [[]|e]; [apply (Ok data), H|].
  apply process_raise in H. destruct H as (pre & _ & _ & _ & _ & H & _).
  apply (Ok pre), H.
Qed.

(** C4, counterexample.  For a verbose pipeline, after the bytes FF 0A
    the delimiter has been handled (the poll raised on it), and the cache is
    not empty: it still holds FF, while nothing follows the last delimiter of
    the input. *)
Lemma cache_survives_undecodable_record :
  let p := fresh "COM1" 115200 [Byte.x0a] true in
  let r := process [Byte.xff; Byte.x0a] (p, calm) in
  fst r = Raise UnicodeDecodeError
  /\ cache (fst (snd r)) = [Byte.xff]
  /\ since_last Byte.x0a [Byte.xff; Byte.x0a] = [].
Proof. repeat split. Qed.

(** C4 (amended). Let the byte loop of [update] run over any prefix [pre] of
    the bytes received, from a pipeline whose cache is free of the delimiter
    byte [d].  Whatever the outcome, the cache is still free of [d], and the
    records present before are still there, unchanged and in place, at the
    head of the record list.  When the loop has not raised, the cache is the
    part of the old cache and [pre] that follows the last [d], so it is empty
    right after a [d].  (The states after the prefixes are the states during
    a longer run, by [process_app].) *)
Theorem cache_invariant (d : byte) (pre : list byte) (p : Pipeline) (w : World)
    r p' w' :
  delimeter p = byte_val d -> d ∉ cache p ->
  process pre (p, w) = (r, (p', w')) ->
  (d ∉ cache p')
  /\ (lines p `prefix_of` lines p')
  /\ (r = Return tt ->
      cache p' = since_last d (cache p ++ pre)
      /\ forall pre0, pre = pre0 ++ [d] -> cache p' = []).
Proof.
  intros Hd Hc H.
  destruct (process_cache_free d pre p w r p' w' Hd Hc H) as [F P].
  split; [exact F|]. split; [exact P|]. intros ->.
  apply (process_framed d) in H; [|assumption..].
  destruct H as (recs & _ & Fr). apply Framed_since_last in Fr.
  split; [exact Fr|]. intros pre0 ->.
  rewrite Fr, app_assoc. apply since_last_snoc_delim.
Qed.

Lemma cache_invariant_witness :
  let p := fresh "COM1" 115200 [Byte.x0a] true in
  let pre := [Byte.x41; Byte.x0a; Byte.x42; Byte.x43] in
  let r := process pre (p, calm) in
  (delimeter p = byte_val Byte.x0a /\ Byte.x0a ∉ cache p)
  /\ (Byte.x0a ∉ cache (fst (snd r)))
  /\ (lines p `prefix_of` lines (fst (snd r)))
  /\ (fst r = Return tt ->
      cache (fst (snd r)) = since_last Byte.x0a (cache p ++ pre)
      /\ forall pre0, pre = pre0 ++ [Byte.x0a] -> cache (fst (snd r)) = []).
Proof.
  split; [split; [reflexivity | apply not_elem_of_nil]|].
  set (R := process [Byte.x41; Byte.x0a; Byte.x42; Byte.x43]
              (fresh "COM1" 115200 [Byte.x0a] true, calm)).
  apply (cache_invariant Byte.x0a [Byte.x41; Byte.x0a; Byte.x42; Byte.x43]
           (fresh "COM1" 115200 [Byte.x0a] true) calm
           (fst R) (fst (snd R)) (snd (snd R))).
  - reflexivity.
  - apply not_elem_of_nil.
  - reflexivity.
Defined.

(** ** [close] and [file_dump] *)

Lemma close_run (p : Pipeline) (w : World) :
  close (p, w)
  = (Return tt,
     (set_serial_port
        (mkSerial (port (serial_port p)) (baudrate (serial_port p)) false
           (in_buffer (serial_port p))) p,
      log (EvClose (port (serial_port p))) w)).
Proof. reflexivity. Qed.

Lemma write_lines (name : string) (ls : list (list byte)) (p : Pipeline)
    (w : World) (c : list byte) :
  files w !! name = Some c ->
  Py.for_each ls (fun line => file_write name line) (p, w)
  = (Return tt,
     (p, log_all (map (EvFileWrite name) ls)
           (set_files (<[name := c ++ concat ls]> (files w)) w))).
Proof.
  revert w c. induction ls as [|l ls IH]; intros w c H.
  - simpl. unfold Py.ret, log_all, set_files. simpl.
    rewrite !app_nil_r, insert_id by exact H. destruct w; reflexivity.
  - simpl. rewrite bind_run. unfold file_write at 1, Py.modify. simpl.
    rewrite H. simpl.
    rewrite (IH _ (c ++ l)) by (simpl; apply lookup_insert_eq).
    unfold log_all, log, set_files. simpl.
    rewrite insert_insert_eq, <- !app_assoc. reflexivity.
Qed.

(** A dump that can open its file writes the records, one after the other,
    into the truncated file. *)
Lemma file_dump_run (p : Pipeline) (w : World) :
  writable w (port_name p ++ "_data.txt") = true ->
  file_dump (p, w)
  = (Return tt,
     (p, log_all (EvFileOpen (port_name p ++ "_data.txt")
                  :: map (EvFileWrite (port_name p ++ "_data.txt")) (lines p))
           (set_files (<[(port_name p ++ "_data.txt")%string
                         := concat (lines p)]> (files w)) w))).
Proof.
  intros H. unfold file_dump. rewrite bind_run. simpl. rewrite bind_run.
  unfold file_open at 1. cbn [fst snd]. rewrite H, bind_run. simpl.
  rewrite (write_lines _ _ _ _ []) by (simpl; apply lookup_insert_eq).
  unfold log_all, log, set_files. simpl.
  rewrite insert_insert_eq, <- !app_assoc. reflexivity.
Qed.

Lemma file_dump_refused (p : Pipeline) (w : World) :
  writable w (port_name p ++ "_data.txt") = false ->
  file_dump (p, w) = (Raise OSError, (p, w)).
Proof.
  intros H. unfold file_dump. rewrite bind_run. simpl. rewrite bind_run.
  unfold file_open at 1. cbn [fst snd]. rewrite H. reflexivity.
Qed.

(** ** C3: what the dump holds *)

(** C3, counterexample.  After the input XY, which holds no delimiter,
    the dump writes an empty file, while the input without its delimiters is
    XY itself. *)
Lemma dump_drops_unfinished_record :
  let p := fresh "COM1" 115200 [Byte.x0a] false in
  let input := [Byte.x58; Byte.x59] in
  let r := (poll_chunks [input];;; file_dump) (p, calm) in
  fst r = Return tt
  /\ files (snd (snd r)) !! "COM1_data.txt"%string = Some []
  /\ strip Byte.x0a input = [Byte.x58; Byte.x59].
Proof. vm_compute. repeat split. Qed.

(** C3 (amended). A pipeline as the constructor leaves it, with the delimiter
    byte [d], is fed a byte sequence in chunks and every [update] returns.
    Then [file_dump], when it can open its file, returns and leaves in the
    file the records one after the other; that content, followed by the bytes
    received after the last [d] (which stay in the cache and are not
    written), is the input with every [d] removed, in the input's order.  So
    the dump is the input without its delimiters exactly when nothing follows
    the last delimiter. *)
Theorem dump_round_trip (d : byte) (chunks : list (list byte)) (p : Pipeline)
    (w : World) p' w' :
  delimeter p = byte_val d -> cache p = [] -> lines p = [] ->
  in_buffer (serial_port p) = [] ->
  poll_chunks chunks (p, w) = (Return tt, (p', w')) ->
  writable w (port_name p ++ "_data.txt") = true ->
  exists w'' dumped,
    file_dump (p', w') = (Return tt, (p', w''))
    /\ files w'' !! (port_name p ++ "_data.txt")%string = Some dumped
    /\ dumped = concat (lines p')
    /\ cache p' = since_last d (concat chunks)
    /\ dumped ++ since_last d (concat chunks) = strip d (concat chunks)
    /\ (since_last d (concat chunks) = [] ->
        dumped = strip d (concat chunks)).
Proof.
  intros Hd Hc Hl Hb H Hw.
  destruct (poll_chunks_agree chunks p w Hb) as [Ho Hp].
  rewrite H in Ho, Hp. simpl in Ho, Hp.
  destruct (process (concat chunks) (p, w)) as [r [p2 w2]] eqn:E.
  simpl in Ho, Hp. subst r p2.
  pose proof (process_frame _ _ _ _ _ _ E) as (Hn & _).
  assert (writable w' = writable w) as Hw'.
  { clear -H Hb. revert p w H Hb.
    induction chunks as [|c chunks IH]; intros p w H Hb.
    - unfold poll_chunks in H. simpl in H. injection H as _ <-. reflexivity.
    - unfold poll_chunks in *. simpl in H. rewrite !bind_run in H.
      unfold modify_self at 1, Py.modify in H. simpl in H.
      destruct (arrive_idle c p Hb) as [Ec Ed].
      destruct c as [|x c].
      + rewrite update_idle in H by exact Ec.
        apply IH in H; [exact H | exact Ec].
      + rewrite update_busy in H by (rewrite Ec; discriminate).
        rewrite Ec, Ed in H.
        destruct (process (x :: c) _) as [[[]|e] [p1 w1]] eqn:E1;
          [|discriminate].
        pose proof (process_frame _ _ _ _ _ _ E1) as (_ & Hs & _ & _ & _ & _ & W1).
        apply IH in H; [|rewrite Hs; exact Hb].
        rewrite H, W1. reflexivity. }
  apply (process_framed d) in E; [|exact Hd|rewrite Hc; apply not_elem_of_nil].
  destruct E as (recs & El & F). rewrite Hl in El. rewrite Hc in F.
  simpl in El, F. subst recs.
  pose proof (Framed_since_last _ _ _ _ F) as Hs.
  pose proof (Framed_strip _ _ _ _ F) as Hstrip.
  eexists _, (concat (lines p')). rewrite <- Hn.
  split; [apply file_dump_run; rewrite Hw'; rewrite Hn; exact Hw|].
  split; [simpl; apply lookup_insert_eq|].
  split; [reflexivity|]. split; [exact Hs|].
  rewrite <- Hs. split; [symmetry; exact Hstrip|].
  intros Hz. rewrite Hstrip, Hz, app_nil_r. reflexivity.
Qed.

Lemma dump_round_trip_witness :
  let p := fresh "COM1" 115200 [Byte.x0a] true in
  let chunks := [[Byte.x41; Byte.x42; Byte.x0a; Byte.x43];
                 [Byte.x44; Byte.x0a; Byte.x45]] in
  let r := poll_chunks chunks (p, calm) in
  (delimeter p = byte_val Byte.x0a /\ cache p = [] /\ lines p = []
   /\ in_buffer (serial_port p) = [] /\ fst r = Return tt
   /\ writable calm (port_name p ++ "_data.txt") = true)
  /\ exists w'' dumped,
      file_dump (snd r) = (Return tt, (fst (snd r), w''))
      /\ files w'' !! (port_name p ++ "_data.txt")%string = Some dumped
      /\ dumped = concat (lines (fst (snd r)))
      /\ cache (fst (snd r)) = since_last Byte.x0a (concat chunks)
      /\ dumped ++ since_last Byte.x0a (concat chunks)
         = strip Byte.x0a (concat chunks)
      /\ (since_last Byte.x0a (concat chunks) = [] ->
          dumped = strip Byte.x0a (concat chunks)).
Proof.
  split; [repeat split|].
  set (R := poll_chunks [[Byte.x41; Byte.x42; Byte.x0a; Byte.x43];
                         [Byte.x44; Byte.x0a; Byte.x45]]
              (fresh "COM1" 115200 [Byte.x0a] true, calm)).
  apply (dump_round_trip Byte.x0a
           [[Byte.x41; Byte.x42; Byte.x0a; Byte.x43];
            [Byte.x44; Byte.x0a; Byte.x45]]
           (fresh "COM1" 115200 [Byte.x0a] true) calm
           (fst (snd R)) (snd (snd R)));
    reflexivity.
Defined.

(** ** C9: delimiters of several bytes *)

Lemma int_from_bytes_pos (bs : list byte) (i : nat) (z : byte) :
  bs !! i = Some z -> z <> Byte.x00 -> 1 <= int_from_bytes bs.
Proof.
  revert i. induction bs as [|x bs IH]; intros i H Hz; [discriminate|].
  simpl. pose proof (byte_val_range x). pose proof (int_from_bytes_nonneg bs).
  destruct i as [|i]; simpl in H.
  - injection H as ->.
    assert (byte_val z <> 0) by (intros E; apply Hz, byte_val_zero, E). lia.
  - specialize (IH i H Hz). lia.
Qed.

Lemma int_from_bytes_wide (delim : list byte) (i : nat) (z : byte) :
  (0 < i)%nat -> delim !! i = Some z -> z <> Byte.x00 ->
  256 <= int_from_bytes delim.
Proof.
  intros Hi H Hz. destruct delim as [|x rest]; [discriminate|].
  destruct i as [|i]; [lia|]. simpl in H.
  pose proof (int_from_bytes_pos rest i z H Hz).
  pose proof (byte_val_range x). simpl. lia.
Qed.

(** C9, counterexample.  The two-byte delimiter 0A 00 is stored as the
    integer 10, below 256, and the received byte 0A matches it: the poll
    emits the record A. *)
Lemma trailing_zero_delimiter_matches :
  let delim := [Byte.x0a; Byte.x00] in
  let p := fresh "COM1" 115200 delim false in
  let r := poll_chunks [[Byte.x41; Byte.x0a]] (p, calm) in
  (1 < length delim)%nat
  /\ delimeter p = 10
  /\ fst r = Return tt
  /\ lines (fst (snd r)) = [[Byte.x41]]
  /\ cache (fst (snd r)) = [].
Proof. vm_compute. repeat split. reflexivity. Qed.

(** C9 (amended). When the delimiter given to the constructor has a non-zero
    byte after its first byte (as every encoding of a character of several
    UTF-8 bytes has), the stored integer is at least 256 and equals no
    received byte: every [update] returns, no record is emitted and every
    received byte is appended to the cache. *)
Theorem wide_delimiter_never_matches (delim : list byte) (i : nat) (z : byte)
    (chunks : list (list byte)) (p : Pipeline) (w : World) :
  (0 < i)%nat -> delim !! i = Some z -> z <> Byte.x00 ->
  delimeter p = int_from_bytes delim ->
  in_buffer (serial_port p) = [] ->
  256 <= delimeter p
  /\ (forall x : byte, (byte_val x =? delimeter p) = false)
  /\ exists w',
      poll_chunks chunks (p, w)
      = (Return tt, (set_cache (cache p ++ concat chunks) p, w'))
      /\ lines (set_cache (cache p ++ concat chunks) p) = lines p.
Proof.
  intros Hi H Hz Hd Hb.
  pose proof (int_from_bytes_wide delim i z Hi H Hz) as Hwide.
  rewrite <- Hd in Hwide.
  assert (forall x : byte, byte_val x <> delimeter p) as Hne.
  { intros x. pose proof (byte_val_range x). lia. }
  split; [exact Hwide|]. split.
  - intros x. apply Z.eqb_neq, Hne.
  - destruct (poll_chunks_no_match chunks p w) as (es & E & _).
    + apply Forall_forall. intros c _. apply Forall_forall. intros x _.
      apply Hne.
    + exact Hb.
    + eexists. split; [exact E | reflexivity].
Qed.

Lemma wide_delimiter_never_matches_witness :
  let delim := [Byte.xc3; Byte.xa9] in
  let p := fresh "COM1" 115200 delim false in
  ((0 < 1)%nat /\ delim !! 1%nat = Some Byte.xa9 /\ Byte.xa9 <> Byte.x00
   /\ delimeter p = int_from_bytes delim /\ in_buffer (serial_port p) = [])
  /\ 256 <= delimeter p
  /\ (forall x : byte, (byte_val x =? delimeter p) = false)
  /\ exists w',
      poll_chunks [[Byte.xc3; Byte.xa9]; [Byte.x0a]] (p, calm)
      = (Return tt,
         (set_cache (cache p ++ concat [[Byte.xc3; Byte.xa9]; [Byte.x0a]]) p,
          w'))
      /\ lines (set_cache (cache p ++ concat [[Byte.xc3; Byte.xa9]; [Byte.x0a]]) p)
         = lines p.
Proof.
  split.
  - repeat split; [lia | discriminate].
  - apply (wide_delimiter_never_matches [Byte.xc3; Byte.xa9] 1 Byte.xa9
             [[Byte.xc3; Byte.xa9]; [Byte.x0a]]
             (fresh "COM1" 115200 [Byte.xc3; Byte.xa9] false) calm);
      [lia | reflexivity | discriminate | reflexivity | reflexivity].
Defined.

(** ** C10: a record the console cannot decode *)

(** C10. The unread bytes are [pre], without the delimiter, then a byte [x]
    equal to the stored delimiter, then [post]; the cache followed by [pre],
    the record that [x] completes, is not valid UTF-8.  A verbose pipeline
    decodes that record for the console first: [update] raises
    [UnicodeDecodeError], nothing is printed, the record list is as before
    (the record is not appended), the cache keeps the bytes of the record,
    and the bytes [post], already read, are not processed.  A pipeline that
    is not verbose decodes nothing: it appends the same record, empties the
    cache and goes on with [post]. *)
Theorem verbose_decode_failure (pre post : list byte) (x : byte)
    (p : Pipeline) (w : World) :
  byte_val x = delimeter p ->
  Forall (fun y => byte_val y <> delimeter p) pre ->
  utf8_valid (cache p ++ pre) = false ->
  in_buffer (serial_port p) = pre ++ x :: post ->
  let w1 := log (EvRead (port (serial_port p)) (length (pre ++ x :: post)))
              (log (EvInWaiting (port (serial_port p))) w) in
  (verbose p = true ->
   update (p, w)
   = (Raise UnicodeDecodeError, (set_cache (cache p ++ pre) (drained p), w1)))
  /\ (verbose p = false ->
      update (p, w)
      = process post
          (set_cache []
             (set_lines (lines p ++ [cache p ++ pre]) (drained p)), w1)).
Proof.
  intros Hx Hpre Hu Hb w1.
  assert (update (p, w)
          = (update_byte x;;; process post)
              (set_cache (cache p ++ pre) (drained p), w1)) as E.
  { rewrite update_busy by (rewrite Hb; destruct pre; discriminate).
    rewrite Hb. fold w1. rewrite process_app, bind_run.
    rewrite process_no_match by exact Hpre. reflexivity. }
  rewrite E, bind_run. split; intros V.
  - rewrite update_byte_undecodable; [reflexivity|exact Hx|exact V|exact Hu].
  - rewrite update_byte_quiet; [reflexivity|exact Hx|exact V].
Qed.

Lemma verbose_decode_failure_witness :
  let p := mkPipeline "COM1"
             (mkSerial "COM1" 115200 true [Byte.xff; Byte.x0a; Byte.x42])
             10 true [Byte.x41] [[Byte.x40]] in
  let r := update (p, calm) in
  (byte_val Byte.x0a = delimeter p
   /\ Forall (fun y => byte_val y <> delimeter p) [Byte.xff]
   /\ utf8_valid (cache p ++ [Byte.xff]) = false
   /\ in_buffer (serial_port p) = [Byte.xff] ++ Byte.x0a :: [Byte.x42])
  /\ fst r = Raise UnicodeDecodeError
  /\ lines (fst (snd r)) = [[Byte.x40]]
  /\ cache (fst (snd r)) = [Byte.x41; Byte.xff].
Proof.
  split.
  - repeat split. repeat constructor. discriminate.
  - assert (Forall (fun y => byte_val y <> 10) [Byte.xff]) as F
      by (repeat constructor; discriminate).
    destruct (verbose_decode_failure [Byte.xff] [Byte.x42] Byte.x0a
                (mkPipeline "COM1"
                   (mkSerial "COM1" 115200 true
                      [Byte.xff; Byte.x0a; Byte.x42])
                   10 true [Byte.x41] [[Byte.x40]]) calm
                eq_refl F eq_refl eq_refl) as [H _].
    simpl in H. rewrite (H eq_refl). repeat split.
Defined.

(** ** C5: a record that never ends *)

Lemma SerialPipeline_init_run (name : string) (baud_rate : Z)
    (delim : list byte) (verb : bool) (w : World) :
  openable w name = true ->
  SerialPipeline_init name baud_rate delim verb w
  = (Return (fresh name baud_rate delim verb), log (EvOpen name baud_rate) w).
Proof.
  intros H. unfold SerialPipeline_init. rewrite bind_run.
  unfold Serial_open. rewrite H. reflexivity.
Qed.

Lemma SerialPipeline_init_refused (name : string) (baud_rate : Z)
    (delim : list byte) (verb : bool) (w : World) :
  openable w name = false ->
  SerialPipeline_init name baud_rate delim verb w
  = (Raise SerialException, log (EvOpenFailed name) w).
Proof.
  intros H. unfold SerialPipeline_init. rewrite bind_run.
  unfold Serial_open. rewrite H. reflexivity.
Qed.

(** C5. A pipeline is constructed on a port that opens, receives chunks that
    hold no byte equal to its delimiter (whatever the verbose flag), is
    closed and then dumped into a file that can be written.  Every call
    returns, [file_dump] included; the record list is empty at the end, the
    received bytes are all still in the cache (neither [close] nor
    [file_dump] flushes it), and the output file exists and is empty. *)
Theorem unfinished_record_is_discarded (name : string) (baud_rate : Z)
    (delim : list byte) (verb : bool) (chunks : list (list byte)) (w : World) :
  openable w name = true ->
  writable w (name ++ "_data.txt") = true ->
  Forall (Forall (fun x => byte_val x <> int_from_bytes delim)) chunks ->
  exists p w1 p' w',
    SerialPipeline_init name baud_rate delim verb w = (Return p, w1)
    /\ (poll_chunks chunks;;; close;;; file_dump) (p, w1) = (Return tt, (p', w'))
    /\ lines p' = []
    /\ cache p' = concat chunks
    /\ files w' !! (name ++ "_data.txt")%string = Some [].
Proof.
  intros Ho Hw Hc.
  destruct (poll_chunks_no_match chunks (fresh name baud_rate delim verb)
              (log (EvOpen name baud_rate) w) Hc eq_refl) as (es & E & _).
  eexists _, _, _, _. split; [apply SerialPipeline_init_run, Ho|].
  rewrite bind_run, E, bind_run, close_run, file_dump_run by exact Hw.
  split; [reflexivity|]. split; [reflexivity|]. split; [reflexivity|].
  simpl. apply lookup_insert_eq.
Qed.

Lemma unfinished_record_is_discarded_witness :
  (openable calm "COM1" = true
   /\ writable calm ("COM1" ++ "_data.txt") = true
   /\ Forall (Forall (fun x => byte_val x <> int_from_bytes [Byte.x0a]))
        [[Byte.x58; Byte.x59]])
  /\ exists p w1 p' w',
      SerialPipeline_init "COM1" 115200 [Byte.x0a] true calm = (Return p, w1)
      /\ (poll_chunks [[Byte.x58; Byte.x59]];;; close;;; file_dump) (p, w1)
         = (Return tt, (p', w'))
      /\ lines p' = []
      /\ cache p' = concat [[Byte.x58; Byte.x59]]
      /\ files w' !! ("COM1" ++ "_data.txt")%string = Some [].
Proof.
  assert (Forall (Forall (fun x => byte_val x <> int_from_bytes [Byte.x0a]))
            [[Byte.x58; Byte.x59]]) as F
    by (repeat constructor; discriminate).
  split; [repeat split; exact F|].
  apply (unfinished_record_is_discarded "COM1" 115200 [Byte.x0a] true
           [[Byte.x58; Byte.x59]] calm eq_refl eq_refl F).
Defined.

(** ** The driver: start-up *)

Lemma construct_run (name : string) (baud_rate : Z) (delim : list byte)
    (verb : bool) (ps : list Pipeline) (w : World) :
  openable w name = true ->
  construct name baud_rate delim verb (ps, w)
  = (Return tt, (ps ++ [fresh name baud_rate delim verb],
                 log (EvOpen name baud_rate) w)).
Proof.
  intros H. unfold construct. simpl.
  rewrite SerialPipeline_init_run by exact H. reflexivity.
Qed.

Lemma construct_refused (name : string) (baud_rate : Z) (delim : list byte)
    (verb : bool) (ps : list Pipeline) (w : World) :
  openable w name = false ->
  construct name baud_rate delim verb (ps, w)
  = (Raise SerialException, (ps, log (EvOpenFailed name) w)).
Proof.
  intros H. unfold construct. simpl.
  rewrite SerialPipeline_init_refused by exact H. reflexivity.
Qed.

(** The first loop of [main] when every port opens. *)
Lemma open_all (names : list string) (baud_rate : Z) (delim : list byte)
    (verb : bool) (ps : list Pipeline) (w : World) :
  Forall (fun n => openable w n = true) names ->
  Py.for_each names (fun name => construct name baud_rate delim verb) (ps, w)
  = (Return tt,
     (ps ++ map (fun n => fresh n baud_rate delim verb) names,
      log_all (map (fun n => EvOpen n baud_rate) names) w)).
Proof.
  revert ps w. induction names as [|n names IH]; intros ps w H.
  - simpl. unfold Py.ret, log_all. rewrite !app_nil_r. destruct w; reflexivity.
  - apply Forall_cons in H as [Hn H]. simpl. rewrite bind_run.
    rewrite construct_run by exact Hn. rewrite IH by exact H.
    unfold log_all, log. simpl. rewrite <- !app_assoc. reflexivity.
Qed.

(** The first loop of [main] stops at the first port that does not open. *)
Lemma open_stops (pre post : list string) (bad : string) (baud_rate : Z)
    (delim : list byte) (verb : bool) (ps : list Pipeline) (w : World) :
  Forall (fun n => openable w n = true) pre -> openable w bad = false ->
  Py.for_each (pre ++ bad :: post)
    (fun name => construct name baud_rate delim verb) (ps, w)
  = (Raise SerialException,
     (ps ++ map (fun n => fresh n baud_rate delim verb) pre,
      log_all (map (fun n => EvOpen n baud_rate) pre ++ [EvOpenFailed bad]) w)).
Proof.
  intros Hpre Hbad. rewrite for_each_app, bind_run.
  rewrite open_all by exact Hpre. simpl. rewrite bind_run.
  rewrite construct_refused by exact Hbad.
  unfold log_all, log. simpl. rewrite <- !app_assoc. reflexivity.
Qed.

(** The first loop of [main] can only raise what opening a port raises. *)
Lemma open_raises (names : list string) (baud_rate : Z) (delim : list byte)
    (verb : bool) (d d' : Driver) (e : exn) :
  Py.for_each names (fun name => construct name baud_rate delim verb) d
  = (Raise e, d') ->
  e = SerialException.
Proof.
  revert d. induction names as [|n names IH]; intros [ps w] H.
  - discriminate.
  - simpl in H. rewrite bind_run in H.
    destruct (openable w n) eqn:O.
    + rewrite construct_run in H by exact O. apply IH in H. exact H.
    + rewrite construct_refused in H by exact O. congruence.
Qed.

(** What a completed first loop leaves. *)
Lemma open_returns (names : list string) (baud_rate : Z) (delim : list byte)
    (verb : bool) (ps : list Pipeline) (w : World) (d' : Driver) :
  Py.for_each names (fun name => construct name baud_rate delim verb) (ps, w)
  = (Return tt, d') ->
  d' = (ps ++ map (fun n => fresh n baud_rate delim verb) names,
        log_all (map (fun n => EvOpen n baud_rate) names) w).
Proof.
  intros H.
  assert (Forall (fun n => openable w n = true) names) as F.
  { revert ps w H. induction names as [|n names IH]; intros ps w H.
    - constructor.
    - simpl in H. rewrite bind_run in H. destruct (openable w n) eqn:O.
      + rewrite construct_run in H by exact O. apply IH in H.
        constructor; [exact O | exact H].
      + rewrite construct_refused in H by exact O. discriminate. }
  rewrite open_all in H by exact F. congruence.
Qed.

(** ** C8: a port that does not open *)

(** C8. When the ports [pre] open and the next port [bad] does not, [main]
    raises [SerialException] at once: its trace holds the openings of [pre]
    and the failed opening of [bad] and nothing else, so no port after [bad]
    is tried, the message that all ports are open is not printed, and no
    pipeline is ever polled, closed or dumped; no file is written. *)
Theorem startup_failure_is_fatal (pre post : list string) (bad : string)
    (baud_rate : Z) (delim : list byte) (verb save_to_file : bool)
    (rounds : list (list (list byte))) (can_open can_write : string -> bool) :
  Forall (fun n => can_open n = true) pre -> can_open bad = false ->
  exists w',
    main (pre ++ bad :: post) baud_rate delim verb save_to_file rounds
      (boot can_open can_write)
    = (Raise SerialException,
       (map (fun n => fresh n baud_rate delim verb) pre, w'))
    /\ events w' = map (fun n => EvOpen n baud_rate) pre ++ [EvOpenFailed bad]
    /\ files w' = ∅.
Proof.
  intros Hpre Hbad. unfold main, boot. rewrite bind_run.
  rewrite open_stops by assumption.
  eexists. split; [reflexivity|]. split; reflexivity.
Qed.

Lemma startup_failure_is_fatal_witness :
  let can_open := fun n : string => negb (String.eqb n "COM7") in
  (Forall (fun n => can_open n = true) ["COM1"%string]
   /\ can_open "COM7"%string = false)
  /\ exists w',
      main (["COM1"%string] ++ "COM7"%string :: ["COM9"%string]) 115200
        [Byte.x0a] true true
        [[[Byte.x41; Byte.x0a]]] (boot can_open (fun _ => true))
      = (Raise SerialException,
         (map (fun n => fresh n 115200 [Byte.x0a] true) ["COM1"%string], w'))
      /\ events w' = map (fun n => EvOpen n 115200) ["COM1"%string]
                     ++ [EvOpenFailed "COM7"]
      /\ files w' = ∅.
Proof.
  assert (Forall (fun n => negb (String.eqb n "COM7") = true) ["COM1"%string])
    as F by (repeat constructor).
  split; [split; [exact F | reflexivity]|].
  apply (startup_failure_is_fatal ["COM1"%string] ["COM9"%string] "COM7"
           115200 [Byte.x0a] true true [[[Byte.x41; Byte.x0a]]]
           (fun n => negb (String.eqb n "COM7")) (fun _ => true) F eq_refl).
Defined.

(** ** The driver: polling *)

Lemma log_all_nil (w : World) : log_all [] w = w.
Proof. unfold log_all. rewrite app_nil_r. destruct w; reflexivity. Qed.

Lemma kept_refl (p : Pipeline) : kept p p.
Proof. repeat split. Qed.

Lemma kept_trans (p1 p2 p3 : Pipeline) : kept p1 p2 -> kept p2 p3 -> kept p1 p3.
Proof. intros (A & B & C) (D & E & F). repeat split; congruence. Qed.

Lemma kept_all_refl (ps : list Pipeline) : Forall2 kept ps ps.
Proof. induction ps; constructor; [apply kept_refl | assumption]. Qed.

Lemma kept_all_trans (ps1 ps2 ps3 : list Pipeline) :
  Forall2 kept ps1 ps2 -> Forall2 kept ps2 ps3 -> Forall2 kept ps1 ps3.
Proof.
  intros H. revert ps3. induction H as [|p1 p2 ps1 ps2 K H IH]; intros ps3 H3.
  - inversion H3. constructor.
  - inversion H3 as [|p2' p3 ps2' ps3' K3 H3']; subst.
    constructor; [eapply kept_trans; eassumption | apply IH, H3'].
Qed.

Lemma kept_all_names (ps ps' : list Pipeline) :
  Forall2 kept ps ps' ->
  map port_name ps' = map port_name ps
  /\ map (fun p => port (serial_port p)) ps'
     = map (fun p => port (serial_port p)) ps.
Proof.
  induction 1 as [|p p' ps ps' (A & B & C) H [IH1 IH2]]; [split; reflexivity|].
  simpl. rewrite A, B, IH1, IH2. split; reflexivity.
Qed.

Lemma kept_all_quiet (ps ps' : list Pipeline) :
  Forall2 kept ps ps' -> Forall (fun p => verbose p = false) ps ->
  Forall (fun p => verbose p = false) ps'.
Proof.
  induction 1 as [|p p' ps ps' (A & B & C) H IH]; intros Q; [constructor|].
  apply Forall_cons in Q as [Qp Q]. constructor; [congruence | apply IH, Q].
Qed.

(** The byte loop only adds to the trace, and nothing of a shutdown. *)
Lemma process_log (data : list byte) (p : Pipeline) (w : World) r p' w' :
  process data (p, w) = (r, (p', w')) ->
  exists es, w' = log_all es w
             /\ Forall (fun e => is_shutdown_event e = false) es.
Proof.
  revert p w. induction data as [|x data IH]; intros p w H.
  - unfold process in H. simpl in H. injection H as _ _ <-.
    exists []. split; [symmetry; apply log_all_nil | constructor].
  - unfold process in *. simpl in H. rewrite bind_run in H.
    destruct (update_byte_cases x p w)
      as [[_ E]|[[_ (es1 & E & F1)]|(_ & _ & _ & E)]]; rewrite E in H.
    + apply IH in H. exact H.
    + apply IH in H. destruct H as (es & -> & F). exists (es1 ++ es).
      split; [apply log_all_log_all | apply Forall_app; split; assumption].
    + injection H as _ _ <-.
      exists []. split; [symmetry; apply log_all_nil | constructor].
Qed.

Lemma update_frame (p : Pipeline) (w : World) r p' w' :
  update (p, w) = (r, (p', w')) ->
  kept p p'
  /\ exists es, w' = log_all es w
                /\ Forall (fun e => is_shutdown_event e = false) es.
Proof.
  intros H. destruct (in_buffer (serial_port p)) as [|x buf] eqn:B.
  - rewrite update_idle in H by exact B. injection H as _ <- <-.
    split; [apply kept_refl|]. eexists [_].
    split; [reflexivity | repeat constructor].
  - rewrite update_busy in H by congruence.
    pose proof (process_frame _ _ _ _ _ _ H) as (A & S & _ & V & _).
    apply process_log in H. destruct H as (es & -> & F). split.
    + repeat split; [exact A | rewrite S; reflexivity | exact V].
    + eexists (_ :: _ :: es). split.
      * unfold log_all, log. simpl. rewrite <- !app_assoc. reflexivity.
      * repeat constructor. exact F.
Qed.

Lemma update_quiet (p : Pipeline) (w : World) :
  verbose p = false -> fst (update (p, w)) = Return tt.
Proof.
  intros V. destruct (in_buffer (serial_port p)) as [|x buf] eqn:B.
  - rewrite update_idle by exact B. reflexivity.
  - rewrite update_busy by congruence. apply process_quiet. exact V.
Qed.

(** One pass of [for pipeline in pipelines: pipeline.update()]. *)
Lemma poll_all_frame (ps : list Pipeline) (w : World) r ps' w' :
  for_pipelines_from update ps w = (r, (ps', w')) ->
  Forall2 kept ps ps'
  /\ exists es, w' = log_all es w
                /\ Forall (fun e => is_shutdown_event e = false) es.
Proof.
  revert w r ps' w'. induction ps as [|p ps IH]; intros w r ps' w' H.
  - simpl in H. injection H as _ <- <-. split; [constructor|].
    exists []. split; [symmetry; apply log_all_nil | constructor].
  - simpl in H. destruct (update (p, w)) as [[[]|e] [p1 w1]] eqn:E;
      apply update_frame in E; destruct E as (K & es1 & -> & F1).
    + destruct (for_pipelines_from update ps (log_all es1 w))
        as [r2 [ps2 w2]] eqn:E2.
      simpl in H. injection H as _ <- <-.
      apply IH in E2. destruct E2 as (K2 & es2 & -> & F2). split.
      * constructor; assumption.
      * exists (es1 ++ es2).
        split; [apply log_all_log_all | apply Forall_app; split; assumption].
    + injection H as _ <- <-. split.
      * constructor; [exact K | apply kept_all_refl].
      * exists es1. split; [reflexivity | exact F1].
Qed.

Lemma poll_all_quiet (ps : list Pipeline) (w : World) :
  Forall (fun p => verbose p = false) ps ->
  fst (for_pipelines_from update ps w) = Return tt.
Proof.
  revert w. induction ps as [|p ps IH]; intros w Q; [reflexivity|].
  apply Forall_cons in Q as [Qp Q]. simpl.
  pose proof (update_quiet p w Qp) as U.
  destruct (update (p, w)) as [[[]|e] [p1 w1]]; [|discriminate].
  simpl. apply IH, Q.
Qed.

Lemma deliver_kept (arrivals : list (list byte)) (ps : list Pipeline) :
  Forall2 kept ps (deliver arrivals ps).
Proof.
  revert arrivals. induction ps as [|p ps IH]; intros arrivals.
  - destruct arrivals; constructor.
  - destruct arrivals as [|a arrivals]; [apply kept_all_refl|].
    simpl. constructor; [repeat split | apply IH].
Qed.

(** The [while] loop never returns; it keeps the pipelines' names and flags
    and only adds to the trace, nothing of a shutdown. *)
Lemma poll_loop_frame (rounds : list (list (list byte))) (ps : list Pipeline)
    (w : World) r ps' w' :
  poll_loop rounds (ps, w) = (r, (ps', w')) ->
  (exists e, r = Raise e)
  /\ Forall2 kept ps ps'
  /\ exists es, w' = log_all es w
                /\ Forall (fun e => is_shutdown_event e = false) es.
Proof.
  revert ps w. induction rounds as [|a rounds IH]; intros ps w H.
  - simpl in H. injection H as <- <- <-. split; [eexists; reflexivity|].
    split; [apply kept_all_refl|]. exists [].
    split; [symmetry; apply log_all_nil | constructor].
  - simpl in H. rewrite bind_run in H. unfold poll_round in H.
    rewrite bind_run in H. unfold Py.modify in H at 1. simpl in H.
    unfold for_pipelines in H at 1. simpl in H.
    destruct (for_pipelines_from update (deliver a ps) w)
      as [[[]|e] [ps1 w1]] eqn:E;
      apply poll_all_frame in E; destruct E as (K & es1 & -> & F1).
    + apply IH in H. destruct H as (R & K2 & es2 & -> & F2).
      split; [exact R|]. split.
      * eapply kept_all_trans; [apply deliver_kept|].
        eapply kept_all_trans; eassumption.
      * exists (es1 ++ es2).
        split; [apply log_all_log_all | apply Forall_app; split; assumption].
    + injection H as <- <- <-. split; [eexists; reflexivity|]. split.
      * eapply kept_all_trans; [apply deliver_kept | exact K].
      * exists es1. split; [reflexivity | exact F1].
Qed.

(** With quiet pipelines the loop can only end by the interrupt. *)
Lemma poll_loop_quiet (rounds : list (list (list byte))) (ps : list Pipeline)
    (w : World) :
  Forall (fun p => verbose p = false) ps ->
  fst (poll_loop rounds (ps, w)) = Raise KeyboardInterrupt.
Proof.
  revert ps w. induction rounds as [|a rounds IH]; intros ps w Q.
  - reflexivity.
  - simpl. rewrite bind_run. unfold poll_round.
    rewrite bind_run. unfold Py.modify at 1. simpl.
    unfold for_pipelines at 1. simpl.
    assert (Forall (fun p => verbose p = false) (deliver a ps)) as Qd
      by (eapply kept_all_quiet; [apply deliver_kept | exact Q]).
    pose proof (poll_all_quiet (deliver a ps) w Qd) as R.
    destruct (for_pipelines_from update (deliver a ps) w)
      as [[[]|e] [ps1 w1]] eqn:E; [|discriminate].
    apply IH. apply poll_all_frame in E. destruct E as (K & _).
    eapply kept_all_quiet; eassumption.
Qed.

(** ** The driver: shutdown *)

(** [for pipeline in pipelines: pipeline.close()] *)
Lemma close_all (ps : list Pipeline) (w : World) :
  for_pipelines_from close ps w
  = (Return tt,
     (map closed ps,
      log_all (map (fun p => EvClose (port (serial_port p))) ps) w)).
Proof.
  revert w. induction ps as [|p ps IH]; intros w.
  - simpl. rewrite log_all_nil. reflexivity.
  - cbn [for_pipelines_from]. rewrite close_run, IH.
    unfold closed, log_all, log. simpl.
    rewrite <- !app_assoc. reflexivity.
Qed.

Lemma save_one_run (p : Pipeline) (w : World) :
  writable w (port_name p ++ "_data.txt") = true ->
  exists w',
    save_one (p, w) = (Return tt, (p, w'))
    /\ events w' = events w ++ dump_trace p
    /\ writable w' = writable w.
Proof.
  intros H. unfold save_one. rewrite bind_run. simpl. rewrite bind_run.
  unfold print, emit, Py.modify. simpl.
  rewrite file_dump_run by exact H.
  eexists. split; [reflexivity|]. split; [|reflexivity].
  simpl. rewrite <- app_assoc. reflexivity.
Qed.

(** The last loop of [main] when every file can be opened. *)
Lemma save_all (ps : list Pipeline) (w : World) :
  Forall (fun p => writable w (port_name p ++ "_data.txt") = true) ps ->
  exists w',
    for_pipelines_from save_one ps w = (Return tt, (ps, w'))
    /\ events w' = events w ++ flat_map dump_trace ps
    /\ writable w' = writable w.
Proof.
  revert w. induction ps as [|p ps IH]; intros w H.
  - exists w. simpl. rewrite app_nil_r. repeat split.
  - apply Forall_cons in H as [Hp H].
    destruct (save_one_run p w Hp) as (w1 & E1 & Ev1 & W1).
    destruct (IH w1) as (w2 & E2 & Ev2 & W2); [rewrite W1; exact H|].
    exists w2. simpl. rewrite E1, E2. simpl.
    split; [reflexivity|]. split; [|congruence].
    rewrite Ev2, Ev1, <- app_assoc. reflexivity.
Qed.

Lemma fresh_names (names : list string) (baud_rate : Z) (delim : list byte)
    (verb : bool) :
  map port_name (map (fun n => fresh n baud_rate delim verb) names) = names
  /\ map (fun p => port (serial_port p))
       (map (fun n => fresh n baud_rate delim verb) names) = names.
Proof.
  induction names as [|n names [IH1 IH2]]; [split; reflexivity|].
  simpl. rewrite IH1, IH2. split; reflexivity.
Qed.

(** With every port opening and verbose off, the polling ends by the
    interrupt and by nothing else. *)
Lemma polling_quiet (ports : list string) (baud_rate : Z) (delim : list byte)
    (rounds : list (list (list byte))) (can_open can_write : string -> bool) :
  Forall (fun n => can_open n = true) ports ->
  fst (polling ports baud_rate delim false rounds (boot can_open can_write))
  = Raise KeyboardInterrupt.
Proof.
  intros H. unfold polling, boot. rewrite bind_run, open_all by exact H.
  rewrite bind_run. unfold say, Py.modify. simpl.
  apply poll_loop_quiet. apply Forall_map, Forall_forall. reflexivity.
Qed.

(** ** C7: the order of the shutdown *)

(** C7. When the polling of [main] ends by the interrupt, [main] closes every
    pipeline and, if [save_to_file] is set and every output file can be
    opened, dumps every pipeline, and returns.  Its trace is: events that
    are neither a close nor a file operation; the message that the ports are
    closing; one close per port, in list order; and then, only if
    [save_to_file] is set, for each pipeline in list order the message that
    it is being saved, the opening of the file named by the port name
    followed by "_data.txt", and the writes of its records to that file.
    Without [save_to_file] the trace ends with the closes. *)
Theorem shutdown_order (ports : list string) (baud_rate : Z)
    (delim : list byte) (verb save_to_file : bool)
    (rounds : list (list (list byte))) (can_open can_write : string -> bool) :
  fst (polling ports baud_rate delim verb rounds (boot can_open can_write))
  = Raise KeyboardInterrupt ->
  (save_to_file = true ->
   Forall (fun n => can_write (n ++ "_data.txt")%string = true) ports) ->
  exists before ps w,
    main ports baud_rate delim verb save_to_file rounds
      (boot can_open can_write) = (Return tt, (ps, w))
    /\ map port_name ps = ports
    /\ Forall (fun e => is_shutdown_event e = false) before
    /\ events w
       = before ++ EvPrint "Closing all serial ports!" :: map EvClose ports
         ++ (if save_to_file then flat_map dump_trace ps else []).
Proof.
  intros H Hw. unfold polling, main in *. rewrite bind_run in *.
  destruct (Py.for_each ports _ (boot can_open can_write))
    as [[[]|e0] d1] eqn:E1.
  2:{ apply open_raises in E1. subst e0. discriminate. }
  unfold boot in E1. apply open_returns in E1. subst d1.
  rewrite bind_run in H. rewrite bind_run.
  unfold say, Py.modify in H |- *. cbn [fst snd app] in H |- *.
  set (ps1 := map (fun n => fresh n baud_rate delim verb) ports) in *.
  set (w1 := log (EvPrint "All ports opened!") _) in *.
  rewrite bind_run. unfold Py.try_except.
  destruct (poll_loop rounds (ps1, w1)) as [r [ps2 w2]] eqn:E2.
  cbn [fst] in H. subst r. cbn [exn_eqb].
  apply poll_loop_frame in E2. destruct E2 as (_ & K & es & -> & F).
  rewrite bind_run. cbn [fst snd].
  unfold for_pipelines at 1. cbn [fst snd]. rewrite close_all.
  destruct (kept_all_names _ _ K) as [N1 N2].
  destruct (fresh_names ports baud_rate delim verb) as [M1 M2].
  fold ps1 in M1, M2. rewrite M1 in N1. rewrite M2 in N2.
  assert (map port_name (map closed ps2) = ports) as N3.
  { rewrite <- N1. clear. induction ps2 as [|p ps IH]; [reflexivity|].
    simpl. rewrite IH. reflexivity. }
  assert (map (fun p => EvClose (port (serial_port p))) ps2
          = map EvClose ports) as N4.
  { rewrite <- N2. clear. induction ps2 as [|p ps IH]; [reflexivity|].
    simpl. rewrite IH. reflexivity. }
  rewrite N4.
  assert (Forall (fun e => is_shutdown_event e = false)
            (map (fun n => EvOpen n baud_rate) ports
             ++ [EvPrint "All ports opened!"] ++ es)) as Fb.
  { apply Forall_app. split.
    - apply Forall_map, Forall_forall. reflexivity.
    - constructor; [reflexivity | exact F]. }
  destruct save_to_file.
  - unfold for_pipelines. simpl.
    match goal with
    | |- context [for_pipelines_from save_one ?l ?v] =>
        destruct (save_all l v) as (w3 & E3 & Ev3 & _)
    end.
    { simpl. rewrite <- N3 in Hw. specialize (Hw eq_refl).
      apply Forall_map in Hw. exact Hw. }
    rewrite E3. eexists _, _, _. split; [reflexivity|].
    split; [exact N3|]. split; [exact Fb|].
    rewrite Ev3. subst w1. simpl.
    rewrite <- !app_assoc. reflexivity.
  - eexists _, _, _. split; [reflexivity|].
    split; [exact N3|]. split; [exact Fb|].
    subst w1. simpl. rewrite <- !app_assoc. simpl.
    rewrite ?app_nil_r. reflexivity.
Qed.

Lemma shutdown_order_witness :
  let ports := ["COM1"%string; "COM3"%string] in
  let rounds := [[[Byte.x41; Byte.x42]; [Byte.x31]];
                 [[Byte.x0a; Byte.x43]; [Byte.x0a]]] in
  (fst (polling ports 115200 [Byte.x0a] true rounds
          (boot (fun _ => true) (fun _ => true))) = Raise KeyboardInterrupt
   /\ (true = true ->
       Forall (fun n : string => (fun _ : string => true) (n ++ "_data.txt")%string = true)
         ports))
  /\ exists before ps w,
      main ports 115200 [Byte.x0a] true true rounds
        (boot (fun _ => true) (fun _ => true)) = (Return tt, (ps, w))
      /\ map port_name ps = ports
      /\ Forall (fun e => is_shutdown_event e = false) before
      /\ events w
         = before ++ EvPrint "Closing all serial ports!" :: map EvClose ports
           ++ (if true then flat_map dump_trace ps else []).
Proof.
  assert (true = true ->
          Forall (fun n : string =>
                    (fun _ : string => true) (n ++ "_data.txt")%string = true)
            ["COM1"%string; "COM3"%string]) as F
    by (intros _; repeat constructor).
  split; [split; [reflexivity | exact F]|].
  apply (shutdown_order ["COM1"%string; "COM3"%string] 115200 [Byte.x0a]
           true true
           [[[Byte.x41; Byte.x42]; [Byte.x31]];
            [[Byte.x0a; Byte.x43]; [Byte.x0a]]]
           (fun _ => true) (fun _ => true) eq_refl F).
Defined.

(** * Further properties of the code *)

(** ** Which bytes end a record *)

Lemma int_from_bytes_zero (bs : list byte) :
  int_from_bytes bs = 0 <-> Forall (fun z => z = Byte.x00) bs.
Proof.
  induction bs as [|x bs IH]; simpl.
  - split; [constructor | reflexivity].
  - pose proof (byte_val_range x). pose proof (int_from_bytes_nonneg bs).
    split.
    + intros H1. constructor.
      * apply byte_val_zero. lia.
      * apply IH. lia.
    + intros F. apply Forall_cons in F as [-> F]. apply IH in F.
      rewrite F. reflexivity.
Qed.

(** X1. The integer stored for the delimiter by [__init__] equals a received
    byte exactly when every byte of the delimiter after the first is zero,
    and the byte it equals is then the first byte of the delimiter (the zero
    byte for an empty delimiter).  So these are the only bytes [update] can
    take for the end of a record. *)
Theorem stored_delimiter_matches_iff (delim : list byte) (x : byte) :
  byte_val x = int_from_bytes delim
  <-> x = hd Byte.x00 delim /\ Forall (fun z => z = Byte.x00) (tail delim).
Proof.
  destruct delim as [|y rest]; simpl.
  - split.
    + intros H. split; [apply byte_val_zero, H | constructor].
    + intros [-> _]. reflexivity.
  - pose proof (byte_val_range x). pose proof (byte_val_range y).
    pose proof (int_from_bytes_nonneg rest). split.
    + intros H2.
      assert (int_from_bytes rest = 0) as Z0 by lia.
      split; [apply byte_val_inj; lia | apply int_from_bytes_zero, Z0].
    + intros [-> F]. apply int_from_bytes_zero in F. lia.
Qed.

(** ** What a verbose pipeline prints *)

Lemma log_all_log (e : Event) (es : list Event) (w : World) :
  log_all es (log e w) = log_all (e :: es) w.
Proof. unfold log_all, log. simpl. rewrite <- app_assoc. reflexivity. Qed.

(** The byte loop appends records and, when verbose, prints each of them. *)
Lemma process_echo (data : list byte) (p : Pipeline) (w : World)
    p' w' :
  process data (p, w) = (Return tt, (p', w')) ->
  exists recs,
    lines p' = lines p ++ recs
    /\ w' = log_all (if verbose p then map (echo p) recs else []) w.
Proof.
  revert p w. induction data as [|x data IH]; intros p w H.
  - unfold process in H. simpl in H. injection H as <- <-.
    exists []. rewrite app_nil_r. split; [reflexivity|].
    destruct (verbose p); symmetry; apply log_all_nil.
  - unfold process in *. simpl in H. rewrite bind_run in H.
    destruct (Z.eq_dec (byte_val x) (delimeter p)) as [E|E].
    + destruct (verbose p) eqn:V.
      * destruct (utf8_valid (cache p)) eqn:U.
        -- rewrite update_byte_echo in H by assumption.
           apply IH in H. destruct H as (recs & Hl & Hw). simpl in Hl, Hw.
           exists (cache p :: recs). split.
           ++ rewrite Hl, <- app_assoc. reflexivity.
           ++ rewrite Hw, V, log_all_log. reflexivity.
        -- rewrite update_byte_undecodable in H by assumption. discriminate.
      * rewrite update_byte_quiet in H by assumption.
        apply IH in H. destruct H as (recs & Hl & Hw). simpl in Hl, Hw.
        exists (cache p :: recs). split.
        -- rewrite Hl, <- app_assoc. reflexivity.
        -- rewrite Hw, V. reflexivity.
    + rewrite update_byte_other in H by exact E.
      apply IH in H. destruct H as (recs & Hl & Hw). simpl in Hl, Hw.
      exists recs. split; [exact Hl | exact Hw].
Qed.

(** X2. When the byte loop of [update] returns, the trace has grown by one
    console line per record appended, in the order of the records, each line
    being the port name, a colon and a space, and the record as text, if the
    pipeline is verbose; and by nothing if it is not. *)
Theorem one_line_per_record (data : list byte) (p : Pipeline) (w : World)
    p' w' :
  process data (p, w) = (Return tt, (p', w')) ->
  exists recs,
    lines p' = lines p ++ recs
    /\ w' = log_all (if verbose p then map (echo p) recs else []) w.
Proof. apply process_echo. Qed.

Lemma one_line_per_record_witness :
  let p := fresh "COM1" 115200 [Byte.x0a] true in
  let r := process [Byte.x41; Byte.x0a; Byte.x0a; Byte.x42] (p, calm) in
  fst r = Return tt
  /\ exists recs,
      lines (fst (snd r)) = lines p ++ recs
      /\ snd (snd r)
         = log_all (if verbose p then map (echo p) recs else []) calm.
Proof.
  split; [reflexivity|].
  set (R := process [Byte.x41; Byte.x0a; Byte.x0a; Byte.x42]
              (fresh "COM1" 115200 [Byte.x0a] true, calm)).
  apply (one_line_per_record [Byte.x41; Byte.x0a; Byte.x0a; Byte.x42]
           (fresh "COM1" 115200 [Byte.x0a] true) calm
           (fst (snd R)) (snd (snd R))).
  reflexivity.
Defined.

(** ** When a poll raises *)







(** ** What a dump does to the files *)



(** ** The driver after the interrupt *)

Lemma open_log (names : list string) (baud_rate : Z) (delim : list byte)
    (verb : bool) (d : Driver) r d' :
  Py.for_each names (fun name => construct name baud_rate delim verb) d
  = (r, d') ->
  exists es, snd d' = log_all es (snd d)
             /\ Forall (fun e => is_shutdown_event e = false) es.
Proof.
  revert d. induction names as [|n names IH]; intros [ps w] H.
  - simpl in H. injection H as _ <-. exists [].
    split; [symmetry; apply log_all_nil | constructor].
  - simpl in H. rewrite bind_run in H. destruct (openable w n) eqn:O.
    + rewrite construct_run in H by exact O. apply IH in H.
      destruct H as (es & -> & F). exists (EvOpen n baud_rate :: es).
      split; [apply log_all_log | constructor; [reflexivity | exact F]].
    + rewrite construct_refused in H by exact O. injection H as _ <-.
      exists [EvOpenFailed n]. split; [reflexivity | repeat constructor].
Qed.

Lemma log_log_all (e : Event) (es : list Event) (w : World) :
  log e (log_all es w) = log_all (es ++ [e]) w.
Proof. unfold log_all, log. simpl. rewrite app_assoc. reflexivity. Qed.

(** What [main] has done when its loop has been interrupted and the ports
    are closed: only the optional dumps are left to run. *)
Lemma main_interrupted (ports : list string) (baud_rate : Z)
    (delim : list byte) (verb save_to_file : bool)
    (rounds : list (list (list byte))) (can_open can_write : string -> bool) :
  fst (polling ports baud_rate delim verb rounds (boot can_open can_write))
  = Raise KeyboardInterrupt ->
  exists ps2 es,
    polling ports baud_rate delim verb rounds (boot can_open can_write)
    = (Raise KeyboardInterrupt,
       (ps2, log_all es (mkWorld can_open can_write ∅ [])))
    /\ Forall (fun e => is_shutdown_event e = false) es
    /\ Forall2 kept (map (fun n => fresh n baud_rate delim verb) ports) ps2
    /\ main ports baud_rate delim verb save_to_file rounds
         (boot can_open can_write)
       = (if save_to_file then for_pipelines save_one else Py.ret tt)
           (map closed ps2,
            log_all (es ++ EvPrint "Closing all serial ports!"
                        :: map EvClose ports)
              (mkWorld can_open can_write ∅ [])).
Proof.
  intros H. unfold polling, main in *. rewrite bind_run in H.
  rewrite !bind_run.
  destruct (Py.for_each ports _ (boot can_open can_write))
    as [[[]|e0] d1] eqn:E1.
  2:{ apply open_raises in E1. subst e0. discriminate. }
  unfold boot in E1. apply open_returns in E1. subst d1.
  rewrite bind_run in H. rewrite !bind_run.
  unfold say, Py.modify in H |- *. cbn [fst snd app] in H |- *.
  rewrite !bind_run. unfold Py.try_except.
  rewrite log_log_all in H |- *.
  match type of H with
  | fst (poll_loop rounds (?a, ?v)) = _ =>
      destruct (poll_loop rounds (a, v)) as [r [ps2 w2]] eqn:E2
  end.
  cbn [fst] in H. subst r. cbn [exn_eqb].
  apply poll_loop_frame in E2. destruct E2 as (_ & K & es & -> & F).
  rewrite !bind_run. cbn [fst snd].
  unfold for_pipelines at 1. cbn [fst snd]. rewrite close_all.
  destruct (kept_all_names _ _ K) as [_ N2].
  destruct (fresh_names ports baud_rate delim verb) as [_ M2].
  rewrite M2 in N2.
  assert (map (fun p => EvClose (port (serial_port p))) ps2
          = map EvClose ports) as N4.
  { rewrite <- N2. clear. induction ps2 as [|p ps IH]; [reflexivity|].
    simpl. rewrite IH. reflexivity. }
  rewrite N4, log_log_all, !log_all_log_all. eexists ps2, _.
  split; [reflexivity|]. split.
  - apply Forall_app. split; [|exact F]. apply Forall_app. split.
    + apply Forall_map, Forall_forall. reflexivity.
    + repeat constructor.
  - split; [exact K|]. rewrite <- !app_assoc. reflexivity.
Qed.

Lemma save_one_world (p : Pipeline) (w : World) :
  writable w (file_of p) = true ->
  save_one (p, w)
  = (Return tt,
     (p, log_all (dump_trace p)
           (set_files (<[file_of p := concat (lines p)]> (files w)) w))).
Proof.
  intros H. unfold save_one. rewrite bind_run. simpl. rewrite bind_run.
  unfold print, emit, Py.modify. simpl.
  rewrite file_dump_run by exact H.
  unfold log_all, log, set_files, dump_trace, file_of. simpl.
  rewrite <- !app_assoc. reflexivity.
Qed.

Lemma save_one_refused (p : Pipeline) (w : World) :
  writable w (file_of p) = false ->
  save_one (p, w)
  = (Raise OSError,
     (p, log (EvPrint ("Saving data from port " ++ port_name p)) w)).
Proof.
  intros H. unfold save_one. rewrite bind_run. simpl. rewrite bind_run.
  unfold print, emit, Py.modify. simpl.
  rewrite file_dump_refused by exact H. reflexivity.
Qed.


(** The last loop of [main] stops at the first file that cannot be opened,
    after announcing its port. *)
Lemma save_stops (pre post : list Pipeline) (bad : Pipeline) (w : World) :
  Forall (fun p => writable w (file_of p) = true) pre ->
  writable w (file_of bad) = false ->
  exists w',
    for_pipelines_from save_one (pre ++ bad :: post) w
    = (Raise OSError, (pre ++ bad :: post, w'))
    /\ events w'
       = events w ++ flat_map dump_trace pre
         ++ [EvPrint ("Saving data from port " ++ port_name bad)]
    /\ (forall f, f ∉ map file_of pre -> files w' !! f = files w !! f).
Proof.
  revert w. induction pre as [|p pre IH]; intros w H Hb.
  - eexists. cbn [app for_pipelines_from].
    rewrite save_one_refused by exact Hb.
    split; [reflexivity|]. split; [reflexivity|]. reflexivity.
  - apply Forall_cons in H as [Hp H].
    destruct (IH (log_all (dump_trace p)
                    (set_files (<[file_of p := concat (lines p)]> (files w)) w)))
      as (w2 & E2 & Ev2 & O2); [exact H | exact Hb |].
    exists w2. cbn [app for_pipelines_from].
    rewrite save_one_world by exact Hp. rewrite E2. simpl.
    split; [reflexivity|]. split.
    + rewrite Ev2. simpl. rewrite <- !app_assoc. reflexivity.
    + intros f Hf. apply not_elem_of_cons in Hf as [Hf1 Hf2].
      rewrite O2 by exact Hf2. simpl. apply lookup_insert_ne. congruence.
Qed.

Lemma closed_names (ps : list Pipeline) :
  map port_name (map closed ps) = map port_name ps
  /\ map file_of (map closed ps) = map file_of ps.
Proof.
  induction ps as [|p ps [IH1 IH2]]; [split; reflexivity|].
  simpl. rewrite IH1, IH2. split; reflexivity.
Qed.

(** X6. [main] is interrupted with [save_to_file] set; the files of the
    ports [pre] can be opened and the file of the next port [bad] cannot.
    Then [main] raises [OSError]: after the closes of all ports, its trace
    holds the dumps of the pipelines of [pre], in order, then the message
    that [bad] is being saved, and nothing more: no port after [bad] is
    dumped or even announced, and no file other than those of [pre] is
    written. *)
Theorem dump_failure_stops_saving (pre post : list string) (bad : string)
    (baud_rate : Z) (delim : list byte) (verb : bool)
    (rounds : list (list (list byte))) (can_open can_write : string -> bool) :
  fst (polling (pre ++ bad :: post) baud_rate delim verb rounds
         (boot can_open can_write)) = Raise KeyboardInterrupt ->
  Forall (fun n => can_write (n ++ "_data.txt")%string = true) pre ->
  can_write (bad ++ "_data.txt")%string = false ->
  exists before saved rest w,
    main (pre ++ bad :: post) baud_rate delim verb true rounds
      (boot can_open can_write) = (Raise OSError, (saved ++ rest, w))
    /\ map port_name saved = pre
    /\ map port_name rest = bad :: post
    /\ Forall (fun e => is_shutdown_event e = false) before
    /\ events w
       = before ++ EvPrint "Closing all serial ports!"
         :: map EvClose (pre ++ bad :: post)
         ++ flat_map dump_trace saved
         ++ [EvPrint ("Saving data from port " ++ bad)]
    /\ (forall f, f ∉ map file_of saved -> files w !! f = None).
Proof.
  intros H Hpre Hbad.
  destruct (main_interrupted _ baud_rate delim verb true rounds can_open
              can_write H) as (ps2 & es & _ & F & K & ->).
  destruct (kept_all_names _ _ K) as [N1 _].
  destruct (fresh_names (pre ++ bad :: post) baud_rate delim verb) as [M1 _].
  rewrite M1 in N1.
  destruct (closed_names ps2) as [C1 _]. rewrite N1 in C1.
  apply map_eq_app in C1. destruct C1 as (saved & rest0 & Eq & Hs & Hr).
  apply map_eq_cons in Hr. destruct Hr as (q & rest & -> & Hq & Hr).
  rewrite Eq. unfold for_pipelines. cbn [fst snd].
  match goal with
  | |- context [for_pipelines_from save_one _ ?v] =>
      destruct (save_stops saved rest q v) as (w' & E & Ev & O)
  end.
  - simpl. rewrite <- Hs in Hpre. apply Forall_map in Hpre. exact Hpre.
  - simpl. unfold file_of. rewrite Hq. exact Hbad.
  - rewrite E. exists es, saved, (q :: rest), w'.
    split; [reflexivity|]. split; [exact Hs|].
    split; [simpl; rewrite Hq, Hr; reflexivity|]. split; [exact F|]. split.
    + rewrite Ev, Hq. simpl. rewrite <- !app_assoc. reflexivity.
    + intros f Hf. rewrite O by exact Hf. simpl. apply lookup_empty.
Qed.

Lemma dump_failure_stops_saving_witness :
  let can_write := fun n : string => negb (String.eqb n "COM3_data.txt") in
  let pre := ["COM1"%string] in
  let post := ["COM5"%string] in
  let rounds := [[[Byte.x41; Byte.x0a]; [Byte.x42; Byte.x0a];
                  [Byte.x43; Byte.x0a]]] in
  (fst (polling (pre ++ "COM3"%string :: post) 115200 [Byte.x0a] false rounds
          (boot (fun _ => true) can_write)) = Raise KeyboardInterrupt
   /\ Forall (fun n => can_write (n ++ "_data.txt")%string = true) pre
   /\ can_write ("COM3" ++ "_data.txt")%string = false)
  /\ exists before saved rest w,
      main (pre ++ "COM3"%string :: post) 115200 [Byte.x0a] false true rounds
        (boot (fun _ => true) can_write) = (Raise OSError, (saved ++ rest, w))
      /\ map port_name saved = pre
      /\ map port_name rest = "COM3"%string :: post
      /\ Forall (fun e => is_shutdown_event e = false) before
      /\ events w
         = before ++ EvPrint "Closing all serial ports!"
           :: map EvClose (pre ++ "COM3"%string :: post)
           ++ flat_map dump_trace saved
           ++ [EvPrint ("Saving data from port " ++ "COM3")]
      /\ (forall f, f ∉ map file_of saved -> files w !! f = None).
Proof.
  intros can_write pre post rounds.
  assert (Forall (fun n => can_write (n ++ "_data.txt")%string = true) pre)
    as F by (repeat constructor).
  split; [split; [reflexivity | split; [exact F | reflexivity]]|].
  apply (dump_failure_stops_saving pre post "COM3" 115200 [Byte.x0a] false
           rounds (fun _ => true) can_write eq_refl F eq_refl).
Defined.

(** X7. When the polling of [main] ends by anything but the interrupt (a port
    that does not open, a record the console cannot decode), [main] ends in
    the same way and in the same state: the handler does not run, so no port
    is closed, and even with [save_to_file] set nothing is dumped and no
    file exists. *)
Theorem uncaught_error_skips_shutdown (ports : list string) (baud_rate : Z)
    (delim : list byte) (verb save_to_file : bool)
    (rounds : list (list (list byte))) (can_open can_write : string -> bool)
    (e : exn) (d : Driver) :
  polling ports baud_rate delim verb rounds (boot can_open can_write)
  = (Raise e, d) ->
  e <> KeyboardInterrupt ->
  main ports baud_rate delim verb save_to_file rounds
    (boot can_open can_write) = (Raise e, d)
  /\ Forall (fun ev => is_shutdown_event ev = false) (events (snd d))
  /\ files (snd d) = ∅.
Proof.
  intros H Hne. unfold polling, main in *. rewrite bind_run in H.
  rewrite bind_run.
  destruct (Py.for_each ports _ (boot can_open can_write))
    as [[[]|e0] d1] eqn:E1.
  - apply open_log in E1. destruct E1 as (es1 & E1 & F1).
    destruct d1 as [ps1 w1]. simpl in E1. subst w1.
    rewrite bind_run in H. rewrite bind_run.
    unfold say, Py.modify in H |- *. cbn [fst snd] in H |- *.
    rewrite bind_run. unfold Py.try_except. rewrite H.
    assert (exn_eqb e KeyboardInterrupt = false) as ->
      by (destruct e; try reflexivity; congruence).
    split; [reflexivity|].
    destruct d as [ps w]. apply poll_loop_frame in H.
    destruct H as (_ & _ & es & -> & F). simpl. split; [|reflexivity].
    apply Forall_app. split; [|exact F]. apply Forall_app. split.
    + exact F1.
    + repeat constructor.
  - injection H as -> ->. split; [reflexivity|].
    apply open_log in E1. destruct E1 as (es1 & -> & F1).
    simpl. split; [exact F1 | reflexivity].
Qed.

Lemma uncaught_error_skips_shutdown_witness :
  let r := polling ["COM1"%string] 115200 [Byte.x0a] true
             [[[Byte.x41; Byte.x0a; Byte.xff; Byte.x0a]]]
             (boot (fun _ => true) (fun _ => true)) in
  (fst r = Raise UnicodeDecodeError
   /\ UnicodeDecodeError <> KeyboardInterrupt)
  /\ main ["COM1"%string] 115200 [Byte.x0a] true true
       [[[Byte.x41; Byte.x0a; Byte.xff; Byte.x0a]]]
       (boot (fun _ => true) (fun _ => true)) = (Raise UnicodeDecodeError, snd r)
  /\ Forall (fun ev => is_shutdown_event ev = false) (events (snd (snd r)))
  /\ files (snd (snd r)) = ∅.
Proof.
  intros r. split; [split; [reflexivity | discriminate]|].
  apply (uncaught_error_skips_shutdown ["COM1"%string] 115200 [Byte.x0a]
           true true [[[Byte.x41; Byte.x0a; Byte.xff; Byte.x0a]]]
           (fun _ => true) (fun _ => true) UnicodeDecodeError (snd r));
    [reflexivity | discriminate].
Defined.

(** ** A run without ports *)

Lemma poll_loop_no_pipelines (rounds : list (list (list byte))) (w : World) :
  poll_loop rounds ([], w) = (Raise KeyboardInterrupt, ([], w)).
Proof.
  induction rounds as [|a rounds IH]; [reflexivity|].
  simpl. rewrite bind_run. unfold poll_round. rewrite bind_run.
  unfold Py.modify at 1. unfold for_pipelines.
  destruct a; simpl; exact IH.
Qed.

(** X8. With an empty list of ports [main] opens nothing, announces that all
    ports are open, idles until the interrupt whatever the devices send,
    announces the closing and returns; also with [save_to_file] set it
    creates no file. *)
Theorem no_ports_run (baud_rate : Z) (delim : list byte)
    (verb save_to_file : bool) (rounds : list (list (list byte)))
    (can_open can_write : string -> bool) :
  main [] baud_rate delim verb save_to_file rounds (boot can_open can_write)
  = (Return tt,
     ([], mkWorld can_open can_write ∅
            [EvPrint "All ports opened!";
             EvPrint "Closing all serial ports!"])).
Proof.
  unfold main, boot. simpl. rewrite !bind_run. unfold Py.ret at 1.
  rewrite bind_run. unfold say at 1, Py.modify. cbn [fst snd].
  rewrite bind_run. unfold Py.try_except. rewrite poll_loop_no_pipelines.
  cbn [exn_eqb]. rewrite bind_run. unfold say, Py.modify. cbn [fst snd].
  unfold for_pipelines. simpl. destruct save_to_file; reflexivity.
Qed.

(** ** Ports do not interfere *)

Lemma update_world (p : Pipeline) (w1 w2 : World) :
  agree (update (p, w1)) (update (p, w2)).
Proof.
  eapply agree_trans; [apply update_agree|].
  eapply agree_trans; [apply process_world|].
  apply agree_sym, update_agree.
Qed.

Lemma poll_chunks_world (chunks : list (list byte)) (p : Pipeline)
    (w1 w2 : World) :
  agree (poll_chunks chunks (p, w1)) (poll_chunks chunks (p, w2)).
Proof.
  revert p w1 w2. induction chunks as [|c chunks IH]; intros p w1 w2.
  - split; reflexivity.
  - unfold poll_chunks in *. simpl. rewrite !bind_run.
    unfold modify_self at 1 3, Py.modify. simpl.
    destruct (update_world (arrive c p) w1 w2) as [Ho Hp].
    destruct (update (arrive c p, w1)) as [[[]|e1] [p1 v1]],
             (update (arrive c p, w2)) as [[[]|e2] [p2 v2]];
      simpl in Ho, Hp; try discriminate; subst.
    + apply IH.
    + split; [exact Ho | reflexivity].
Qed.









(** ** The files of a saved run *)









(** ** The options of the script *)

Lemma has_help_iff (opts : list (string * string)) :
  Script.has_help opts = true <-> ("-h"%string, ""%string) ∈ opts.
Proof.
  unfold Script.has_help. rewrite existsb_exists. split.
  - intros ([c q] & Hin & H). apply andb_true_iff in H as [H1 H2].
    apply String.eqb_eq in H1, H2. simpl in H1, H2. subst.
    apply list_elem_of_In, Hin.
  - intros H. exists ("-h"%string, ""%string). split.
    + apply list_elem_of_In, H.
    + reflexivity.
Qed.

(** X11. When the options hold the pair of [-h] and the empty string, the
    script prints the usage text and does nothing else, whatever the other
    options (also a baud rate that is no integer) and the port arguments:
    no port is opened and [main] is not run. *)
Theorem help_wins (int : string -> option Z) (opts : list (string * string))
    (args : list string) (rounds : list (list (list byte))) (d : Driver) :
  ("-h"%string, ""%string) ∈ opts ->
  Script.run int opts args rounds d
  = (Script.Finished, (fst d, log (EvPrint Script.usage) (snd d))).
Proof.
  intros H. apply has_help_iff in H. unfold Script.run. rewrite H.
  reflexivity.
Qed.

Lemma help_wins_witness :
  let opts := [("-b", "fast"); ("-h", ""); ("-f", "")]%string in
  ("-h"%string, ""%string) ∈ opts
  /\ Script.run (fun _ => None) opts ["COM1"%string] [[[Byte.x41]]]
       (boot (fun _ => true) (fun _ => true))
     = (Script.Finished,
        ([], log (EvPrint Script.usage)
               (mkWorld (fun _ => true) (fun _ => true) ∅ []))).
Proof.
  intros opts.
  assert (("-h"%string, ""%string) ∈ opts) as H.
  { apply elem_of_cons. right. apply elem_of_cons. left. reflexivity. }
  split; [exact H|].
  apply (help_wins (fun _ => None) opts ["COM1"%string] [[[Byte.x41]]]
           (boot (fun _ => true) (fun _ => true)) H).
Defined.

Lemma option_step_b (int : string -> option Z) (l : Script.locals)
    (param : string) :
  Script.option_step int l ("-b"%string, param)
  = match int param with
    | Some n => Some (Script.mkLocals n (Script.verbose l)
                        (Script.save_to_file l) (Script.delimiter l))
    | None => None
    end.
Proof. reflexivity. Qed.

Lemma option_step_other (int : string -> option Z) (l : Script.locals)
    (cmd param : string) :
  cmd <> "-b"%string ->
  exists l',
    Script.option_step int l (cmd, param) = Some l'
    /\ Script.baud_rate l' = Script.baud_rate l
    /\ Script.verbose l'
       = (Script.verbose l || bool_decide (cmd = "-v"%string))
    /\ Script.save_to_file l'
       = (Script.save_to_file l || bool_decide (cmd = "-f"%string))
    /\ Script.delimiter l'
       = (if bool_decide (cmd = "-d"%string) then list_byte_of_string param
          else Script.delimiter l).
Proof.
  intros Hb. unfold Script.option_step.
  apply String.eqb_neq in Hb. rewrite Hb.
  destruct (String.eqb_spec cmd "-v") as [->|Hv].
  { eexists. split; [reflexivity|]. simpl.
    rewrite orb_true_r, orb_false_r. repeat split. }
  destruct (String.eqb_spec cmd "-f") as [->|Hf].
  { eexists. split; [reflexivity|]. simpl.
    rewrite orb_true_r, orb_false_r. repeat split. }
  destruct (String.eqb_spec cmd "-d") as [->|Hd].
  { eexists. split; [reflexivity|]. simpl.
    rewrite !orb_false_r. repeat split. }
  exists l. split; [reflexivity|].
  rewrite !bool_decide_eq_false_2 by assumption.
  rewrite !orb_false_r. repeat split.
Qed.

(** What the option loop leaves, from any values of the variables. *)
Lemma read_options_from (int : string -> option Z)
    (opts : list (string * string)) (l0 l : Script.locals) :
  Script.read_options int l0 opts = Some l ->
  Script.verbose l
  = (Script.verbose l0 || existsb (fun o => String.eqb (fst o) "-v") opts)
  /\ Script.save_to_file l
     = (Script.save_to_file l0
        || existsb (fun o => String.eqb (fst o) "-f") opts)
  /\ Script.delimiter l
     = from_option (fun o => list_byte_of_string (snd o)) (Script.delimiter l0)
         (last (filter (fun o => fst o = "-d"%string) opts))
  /\ Some (Script.baud_rate l)
     = from_option (fun o => int (snd o)) (Some (Script.baud_rate l0))
         (last (filter (fun o => fst o = "-b"%string) opts)).
Proof.
  revert l0. induction opts as [|[cmd param] opts IH]; intros l0 H.
  - simpl in H. injection H as <-. simpl. rewrite !orb_false_r.
    repeat split.
  - cbn [Script.read_options] in H.
    destruct (Script.option_step int l0 (cmd, param)) as [l1|] eqn:E;
      [|discriminate].
    destruct (IH l1 H) as (Hv & Hf & Hd & Hb). clear IH.
    cbn [existsb fst snd].
    destruct (decide (cmd = "-b"%string)) as [->|Nb].
    + rewrite option_step_b in E.
      destruct (int param) as [n|] eqn:Ei; [|discriminate].
      injection E as <-. simpl in Hv, Hf, Hd, Hb.
      rewrite Hv, Hf, Hd. simpl.
      split; [reflexivity|]. split; [reflexivity|].
      rewrite filter_cons_False by discriminate.
      split; [reflexivity|].
      rewrite filter_cons_True by reflexivity. rewrite last_cons.
      destruct (last _) as [o|]; [exact Hb|]. simpl in Hb |- *.
      rewrite Hb, Ei. reflexivity.
    + destruct (option_step_other int l0 cmd param Nb)
        as (l1' & E' & Bb & Bv & Bf & Bd).
      rewrite E in E'. injection E' as <-.
      rewrite Hv, Hf, Hd, Hb, Bb, Bv, Bf, Bd.
      rewrite (filter_cons_False (fun o => fst o = "-b"%string))
        by (simpl; exact Nb).
      rewrite <- !orb_assoc.
      split; [f_equal; f_equal;
              destruct (String.eqb_spec cmd "-v");
              [rewrite bool_decide_eq_true_2 by assumption
              |rewrite bool_decide_eq_false_2 by assumption]; reflexivity|].
      split; [f_equal; f_equal;
              destruct (String.eqb_spec cmd "-f");
              [rewrite bool_decide_eq_true_2 by assumption
              |rewrite bool_decide_eq_false_2 by assumption]; reflexivity|].
      split; [|reflexivity].
      destruct (decide (cmd = "-d"%string)) as [->|Nd].
      * rewrite filter_cons_True by reflexivity. rewrite last_cons.
        destruct (last _) as [o|]; reflexivity.
      * rewrite filter_cons_False by (simpl; exact Nd).
        rewrite bool_decide_eq_false_2 by exact Nd. reflexivity.
Qed.

(** X12. When the option loop of the script completes, the variables are:
    verbose exactly when some option is [-v]; save-to-file exactly when some
    option is [-f]; the delimiter is the bytes of the parameter of the last
    [-d], or the line feed without any [-d]; the baud rate is the integer of
    the parameter of the last [-b], or 115200 without any [-b]. *)
Theorem options_last_wins (int : string -> option Z)
    (opts : list (string * string)) (l : Script.locals) :
  Script.read_options int Script.defaults opts = Some l ->
  Script.verbose l = existsb (fun o => String.eqb (fst o) "-v") opts
  /\ Script.save_to_file l = existsb (fun o => String.eqb (fst o) "-f") opts
  /\ Script.delimiter l
     = from_option (fun o => list_byte_of_string (snd o)) [Byte.x0a]
         (last (filter (fun o => fst o = "-d"%string) opts))
  /\ Some (Script.baud_rate l)
     = from_option (fun o => int (snd o)) (Some 115200)
         (last (filter (fun o => fst o = "-b"%string) opts)).
Proof. intros H. apply read_options_from in H. exact H. Qed.

Lemma options_last_wins_witness :
  let int := fun s : string =>
               if String.eqb s "9600" then Some 9600
               else if String.eqb s "19200" then Some 19200 else None in
  let opts := [("-b", "9600"); ("-d", ";"); ("-v", ""); ("-b", "19200");
               ("-d", "|")]%string in
  exists l,
    Script.read_options int Script.defaults opts = Some l
    /\ Script.verbose l = true
    /\ Script.save_to_file l = false
    /\ Script.delimiter l = [Byte.x7c]
    /\ Some (Script.baud_rate l) = Some 19200.
Proof.
  intros int opts.
  destruct (Script.read_options int Script.defaults opts) as [l|] eqn:E;
    [|discriminate].
  exists l. split; [reflexivity|].
  exact (options_last_wins int opts l E).
Defined.



(** ** The verbose flag and the records *)

(** X14. The verbose flag has no influence on the framing: when the byte
    loop of a pipeline returns, the same loop on a pipeline that is not
    verbose and has the same delimiter, cache and record list returns too,
    prints nothing, and leaves the same record list and the same cache. *)
Theorem verbose_changes_no_record (data : list byte) (p q : Pipeline)
    (w v : World) p' w' :
  delimeter q = delimeter p -> cache q = cache p -> lines q = lines p ->
  verbose q = false ->
  process data (p, w) = (Return tt, (p', w')) ->
  exists q',
    process data (q, v) = (Return tt, (q', v))
    /\ lines q' = lines p' /\ cache q' = cache p'.
Proof.
  revert p q w. induction data as [|x data IH]; intros p q w Hd Hc Hl Hv H.
  - unfold process in *. simpl in H |- *. injection H as <- <-.
    exists q. split; [reflexivity|]. split; assumption.
  - unfold process in *. simpl in H |- *. rewrite bind_run in H.
    rewrite bind_run.
    destruct (update_byte_cases x p w)
      as [[N E]|[[M (es1 & E & _)]|(_ & _ & _ & E)]]; rewrite E in H;
      [| |discriminate].
    + rewrite update_byte_other by (rewrite Hd; exact N).
      apply (IH _ (set_cache (cache q ++ [x]) q)) in H;
        [exact H | exact Hd | simpl; rewrite Hc; reflexivity | exact Hl
        | exact Hv].
    + rewrite update_byte_quiet by (try rewrite Hd; assumption).
      apply (IH _ (set_cache [] (set_lines (lines q ++ [cache q]) q))) in H;
        [exact H | exact Hd | reflexivity
        | simpl; rewrite Hl, Hc; reflexivity | exact Hv].
Qed.

Lemma verbose_changes_no_record_witness :
  let p := fresh "COM1" 115200 [Byte.x0a] true in
  let q := fresh "COM1" 115200 [Byte.x0a] false in
  let data := [Byte.x41; Byte.x0a; Byte.x42] in
  let r := process data (p, calm) in
  (delimeter q = delimeter p /\ cache q = cache p /\ lines q = lines p
   /\ verbose q = false /\ fst r = Return tt)
  /\ exists q',
      process data (q, calm) = (Return tt, (q', calm))
      /\ lines q' = lines (fst (snd r)) /\ cache q' = cache (fst (snd r)).
Proof.
  intros p q data r. split; [repeat split|].
  apply (verbose_changes_no_record data p q calm calm (fst (snd r))
           (snd (snd r))); reflexivity.
Defined.

(** ** The trace of one round *)

Lemma update_byte_log2 (x : byte) (p : Pipeline) (w1 w2 : World) :
  exists es,
    snd (snd (update_byte x (p, w1))) = log_all es w1
    /\ snd (snd (update_byte x (p, w2))) = log_all es w2.
Proof.
  unfold update_byte, Py.bind, get_self, decode. simpl.
  destruct (byte_val x =? delimeter p);
    [|exists []; rewrite !log_all_nil; split; reflexivity].
  destruct (verbose p);
    [|exists []; rewrite !log_all_nil; split; reflexivity].
  destruct (utf8_valid (cache p)).
  - eexists [_]. split; reflexivity.
  - exists []. rewrite !log_all_nil. split; reflexivity.
Qed.

Lemma process_log2 (data : list byte) (p : Pipeline) (w1 w2 : World) :
  exists es,
    snd (snd (process data (p, w1))) = log_all es w1
    /\ snd (snd (process data (p, w2))) = log_all es w2.
Proof.
  revert p w1 w2. induction data as [|x data IH]; intros p w1 w2.
  - exists []. rewrite !log_all_nil. split; reflexivity.
  - unfold process in *. simpl. rewrite !bind_run.
    destruct (update_byte_world x p w1 w2) as [Ho Hp].
    destruct (update_byte_log2 x p w1 w2) as (es1 & L1 & L2).
    destruct (update_byte x (p, w1)) as [[[]|e1] [p1 v1]],
             (update_byte x (p, w2)) as [[[]|e2] [p2 v2]];
      simpl in Ho, Hp, L1, L2; try discriminate; subst.
    + destruct (IH p2 (log_all es1 w1) (log_all es1 w2)) as (es2 & -> & ->).
      exists (es1 ++ es2). rewrite !log_all_log_all. split; reflexivity.
    + exists es1. split; reflexivity.
Qed.

Lemma update_log2 (p : Pipeline) (w1 w2 : World) :
  exists es,
    snd (snd (update (p, w1))) = log_all es w1
    /\ snd (snd (update (p, w2))) = log_all es w2.
Proof.
  destruct (in_buffer (serial_port p)) as [|x buf] eqn:B.
  - rewrite !update_idle by exact B. eexists [_]. split; reflexivity.
  - rewrite !update_busy by congruence.
    match goal with
    | |- context [process ?data (?q, log ?b (log ?a w1))] =>
        destruct (process_log2 data q (log b (log a w1)) (log b (log a w2)))
          as (es & -> & ->); exists (a :: b :: es)
    end.
    rewrite !log_all_log. split; reflexivity.
Qed.

(** One [update] adds the same events to any trace. *)
Lemma update_trace (p : Pipeline) (w : World) :
  snd (snd (update (p, w))) = log_all (poll_trace p) w.
Proof.
  destruct (update_log2 p w calm) as (es & -> & E).
  unfold poll_trace. rewrite E. reflexivity.
Qed.

(** X15. When a pass of [for pipeline in pipelines: pipeline.update()]
    returns, what it has added to the trace is, pipeline after pipeline in
    list order, what the [update] of that pipeline adds on its own: the
    look at the port, the read, and the console lines of a verbose
    pipeline.  So the output for an earlier port of the list always comes
    before the output for a later one. *)
Theorem round_trace_in_list_order (ps : list Pipeline) (w : World) ps' w' :
  for_pipelines_from update ps w = (Return tt, (ps', w')) ->
  events w' = events w ++ concat (map poll_trace ps).
Proof.
  revert w ps' w'. induction ps as [|p ps IH]; intros w ps' w' H.
  - simpl in H. injection H as _ <-. simpl. rewrite app_nil_r. reflexivity.
  - simpl in H. pose proof (update_trace p w) as T.
    destruct (update (p, w)) as [[[]|e1] [p1 w1]]; [|discriminate].
    simpl in T. subst w1.
    destruct (for_pipelines_from update ps (log_all (poll_trace p) w))
      as [r2 [ps2 w2]] eqn:E2.
    simpl in H. injection H as -> _ <-.
    apply IH in E2. rewrite E2. simpl. rewrite app_assoc. reflexivity.
Qed.

Lemma round_trace_in_list_order_witness :
  let ps := [arrive [Byte.x31; Byte.x0a] (fresh "COM1" 115200 [Byte.x0a] true);
             arrive [Byte.x32; Byte.x0a] (fresh "COM3" 115200 [Byte.x0a] true)]
  in
  let r := for_pipelines_from update ps calm in
  fst r = Return tt
  /\ events (snd (snd r)) = events calm ++ concat (map poll_trace ps)
  /\ concat (map poll_trace ps)
     = [EvInWaiting "COM1"; EvRead "COM1" 2; EvPrint "COM1: 1";
        EvInWaiting "COM3"; EvRead "COM3" 2; EvPrint "COM3: 2"].
Proof.
  intros ps r. split; [reflexivity|]. split; [|reflexivity].
  apply (round_trace_in_list_order ps calm (fst (snd r)) (snd (snd r))).
  reflexivity.
Defined.
